(** * The real-time broadcast core of the project analytics bot

    A shallow embedding of [src/main.py]: the [lifespan] context manager
    (start-up and shut-down of the four backing engines) and the three
    WebSocket endpoints [websocket_projects], [websocket_portfolio] and
    [websocket_alerts] with the connection registry [active_connections].

    The program is asynchronous and talks to code that lives outside the
    file (the engines, the WebSocket transport, the event-loop timer).  Each
    such call is answered by the environment: a run is driven by a script of
    responses, one per external call, each telling how long the call took and
    whether it returned or raised.  A coroutine that reaches an external call
    with the script exhausted is suspended there ([Pending]). *)

From Stdlib Require Import ZArith NArith List Lia.
From stdpp Require Import gmap strings list fin_maps pretty.

Local Open Scope string_scope.
Local Open Scope list_scope.
Local Set Warnings "-register-all".

(** ** Values *)

(** What the engines hand back and [send_json] serialises. *)
Inductive json : Type :=
| JNull
| JBool (b : bool)
| JNum (z : Z)
| JStr (s : string)
| JList (items : list json)
| JDict (fields : list (string * json)).

(** Python truth value, as tested by [if alerts:]. *)
Definition truthy (v : json) : bool :=
  match v with
  | JNull => false
  | JBool b => b
  | JNum z => negb (z =? 0)%Z
  | JStr s => negb (String.eqb s "")
  | JList items => match items with [] => false | _ :: _ => true end
  | JDict fields => match fields with [] => false | _ :: _ => true end
  end.

(** A WebSocket object.  The program calls its [accept] and [send_json] and
    takes its [id()].  [connection] tells the objects apart: it numbers the
    connections in the order the server received them.  [py_id] is what
    [id()] returns, the address of the object: no two objects alive at the
    same time share it, but a later connection may be given the address of
    one that was freed. *)
Record WebSocket : Type := { connection : N; py_id : N }.

(** The same object. *)
Definition same_socket (a b : WebSocket) : bool :=
  (connection a =? connection b)%N && (py_id a =? py_id b)%N.

(** The engine objects; the classes are imported from other modules, an
    instance is the record of the arguments its constructor was given.  An
    instance of any of these classes is true in a boolean context. *)
Inductive Config : Type := ProjectConfig.
Inductive Collector : Type := ProjectDataCollector (config : Config).
Inductive Analyzer : Type := ProjectAnalyzer (config : Config) (dc : Collector).
Inductive Optimizer : Type := PortfolioOptimizer (config : Config) (dc : Collector).
Inductive Risk : Type := RiskAnalyzer (config : Config) (dc : Collector).

(** ** Exceptions *)

Inductive exn : Type :=
| WebSocketDisconnect (code : N)
| Exception (what : string)        (* any other subclass of Exception *)
| BaseException (what : string).   (* CancelledError, KeyboardInterrupt, ... *)

Definition isinstance_Exception (e : exn) : bool :=
  match e with
  | BaseException _ => false
  | _ => true
  end.

(** ** Topics *)

Inductive topic : Type := Project | Portfolio | Alert.

(** ** External calls, responses and the observable trace *)

Inductive callee : Type :=
| New (cls : string)
| DataCollectorStart
| DataCollectorStop
| LoadModels
| GetRealtimeAnalytics
| GetRealtimePortfolio
| GetActiveAlerts
| WsAccept (ws : WebSocket)
| WsSendJson (ws : WebSocket) (data : json)
| AsyncioSleep (secs : N).

Inductive outcome : Type :=
| Returns (v : json)
| Raises (e : exn).

Record response : Type := { took : N; answer : outcome }.

Inductive logmsg : Type :=
| Starting
| Initialized
| FailedToInitialize (e : exn)
| ShuttingDown
| ShutdownComplete
| Disconnected (connection_id : string).

Inductive event : Type :=
| Call (c : callee)
| Return (c : callee)
| LogInfo (m : logmsg)
| LogError (m : logmsg).

(** ** Program state *)

Record world : Type := World {
  project_analyzer : option Analyzer;
  portfolio_optimizer : option Optimizer;
  risk_analyzer : option Risk;
  data_collector : option Collector;
  active_connections : gmap string WebSocket;
  now : N;                    (* the clock, in seconds *)
  trace : list event;         (* what happened so far, latest event first *)
  pending : list response     (* the script: what the environment answers next *)
}.

(** At import time: the four globals are [None], no connection is known. *)
Definition boot (script : list response) : world :=
  World None None None None ∅ 0 [] script.

Definition with_project_analyzer (x : option Analyzer) (w : world) : world :=
  World x (portfolio_optimizer w) (risk_analyzer w) (data_collector w)
        (active_connections w) (now w) (trace w) (pending w).
Definition with_portfolio_optimizer (x : option Optimizer) (w : world) : world :=
  World (project_analyzer w) x (risk_analyzer w) (data_collector w)
        (active_connections w) (now w) (trace w) (pending w).
Definition with_risk_analyzer (x : option Risk) (w : world) : world :=
  World (project_analyzer w) (portfolio_optimizer w) x (data_collector w)
        (active_connections w) (now w) (trace w) (pending w).
Definition with_data_collector (x : option Collector) (w : world) : world :=
  World (project_analyzer w) (portfolio_optimizer w) (risk_analyzer w) x
        (active_connections w) (now w) (trace w) (pending w).
Definition with_active_connections (m : gmap string WebSocket) (w : world) : world :=
  World (project_analyzer w) (portfolio_optimizer w) (risk_analyzer w)
        (data_collector w) m (now w) (trace w) (pending w).
Definition emit (e : event) (w : world) : world :=
  World (project_analyzer w) (portfolio_optimizer w) (risk_analyzer w)
        (data_collector w) (active_connections w) (now w) (e :: trace w)
        (pending w).
Definition answered (dt : N) (rest : list response) (w : world) : world :=
  World (project_analyzer w) (portfolio_optimizer w) (risk_analyzer w)
        (data_collector w) (active_connections w) (now w + dt) (trace w) rest.

(** ** The monad of coroutines: state, exceptions and suspension *)

Inductive result (A : Type) : Type :=
| Ok (a : A)
| Raise (e : exn)
| Pending.
Arguments Ok {A} a.
Arguments Raise {A} e.
Arguments Pending {A}.

Definition M (A : Type) : Type := world -> result A * world.

Definition ret {A} (a : A) : M A := fun w => (Ok a, w).
Definition raise {A} (e : exn) : M A := fun w => (Raise e, w).

Definition bind {A B} (m : M A) (k : A -> M B) : M B :=
  fun w =>
    match m w with
    | (Ok a, w') => k a w'
    | (Raise e, w') => (Raise e, w')
    | (Pending, w') => (Pending, w')
    end.

Notation "'do' x <- m ; k" := (bind m (fun x => k))
  (at level 10, x name, m at level 100, k at level 200,
   format "'[v' 'do'  x  <-  m ; '/' k ']'").
Notation "'run' m ; k" := (bind m (fun _ => k))
  (at level 10, m at level 100, k at level 200,
   format "'[v' 'run'  m ; '/' k ']'").

(** [try: m except h]: only a raised exception reaches the handler. *)
Definition try_except {A} (m : M A) (h : exn -> M A) : M A :=
  fun w =>
    match m w with
    | (Raise e, w') => h e w'
    | other => other
    end.

Definition get {A} (field : world -> A) : M A := fun w => (Ok (field w), w).
Definition modify (f : world -> world) : M unit := fun w => (Ok tt, f w).

Definition logging_info (m : logmsg) : M unit := modify (emit (LogInfo m)).
Definition logging_error (m : logmsg) : M unit := modify (emit (LogError m)).

(** How long a call lasted: a sleep that returns lasted what was asked for,
    every other call what the environment says. *)
Definition duration (c : callee) (r : response) : N :=
  match c, answer r with
  | AsyncioSleep secs, Returns _ => secs
  | _, _ => took r
  end.

(** One external call (for a coroutine, one [await]). *)
Definition external (c : callee) : M json :=
  fun w =>
    let w1 := emit (Call c) w in
    match pending w1 with
    | [] => (Pending, w1)
    | r :: rest =>
        let w2 := answered (duration c r) rest w1 in
        match answer r with
        | Returns v => (Ok v, emit (Return c) w2)
        | Raises e => (Raise e, w2)
        end
    end.

(** A constructor call: it may raise; when it returns, the object is the one
    built from its arguments. *)
Definition construct {A} (cls : string) (obj : A) : M A :=
  run external (New cls);
  ret obj.

(** [while True: body].  The recursion is bounded by [fuel]; [forever] gives
    it more fuel than the script has responses. *)
Fixpoint while_True (fuel : nat) (body : M unit) : M unit :=
  match fuel with
  | O => fun w => (Pending, w)
  | S fuel' => run body; while_True fuel' body
  end.

Definition forever (body : M unit) : M unit :=
  fun w => while_True (S (length (pending w))) body w.

(** ** The registry: a Python dict *)

(** [d[key] = value] *)
Definition dict_setitem (key : string) (value : WebSocket)
    (d : gmap string WebSocket) : gmap string WebSocket :=
  <[key := value]> d.

(** [d.pop(key, None)]: the value found, if any, and the dict without it;
    with a default given, no [KeyError] is raised. *)
Definition dict_pop (key : string) (d : gmap string WebSocket)
    : option WebSocket * gmap string WebSocket :=
  (d !! key, delete key d).

Definition setitem_active_connections (key : string) (value : WebSocket) : M unit :=
  modify (fun w => with_active_connections (dict_setitem key value (active_connections w)) w).

Definition pop_active_connections (key : string) : M (option WebSocket) :=
  fun w =>
    let '(found, d) := dict_pop key (active_connections w) in
    (Ok found, with_active_connections d w).

(** ** Process lifecycle: [lifespan] *)

(** The part of [lifespan] before [yield]. *)
Definition lifespan_startup : M unit :=
  run logging_info Starting;
  try_except
    (do config <- construct "ProjectConfig" ProjectConfig;
     do dc <- construct "ProjectDataCollector" (ProjectDataCollector config);
     run modify (with_data_collector (Some dc));
     do pa <- construct "ProjectAnalyzer" (ProjectAnalyzer config dc);
     run modify (with_project_analyzer (Some pa));
     do po <- construct "PortfolioOptimizer" (PortfolioOptimizer config dc);
     run modify (with_portfolio_optimizer (Some po));
     do ra <- construct "RiskAnalyzer" (RiskAnalyzer config dc);
     run modify (with_risk_analyzer (Some ra));
     run external DataCollectorStart;
     run external LoadModels;
     logging_info Initialized)
    (fun e =>
       if isinstance_Exception e
       then run logging_error (FailedToInitialize e); raise e
       else raise e).

(** The part of [lifespan] after [yield]. *)
Definition lifespan_shutdown : M unit :=
  run logging_info ShuttingDown;
  do dc <- get data_collector;
  run match dc with
      | Some _ => run external DataCollectorStop; ret tt
      | None => ret tt
      end;
  logging_info ShutdownComplete.

(** The context manager around the application it serves: an exception
    thrown in at [yield] is not caught, the shut-down part is then skipped. *)
Definition lifespan (serve : M unit) : M unit :=
  run lifespan_startup;
  run serve;
  lifespan_shutdown.

(** ** The WebSocket endpoints *)

(** The f-string [f"projects_{id(websocket)}"] and its two siblings. *)
Definition connection_id_of (prefix : string) (websocket : WebSocket) : string :=
  prefix +:+ pretty (py_id websocket).

(** The body of the [while True] of [websocket_projects]. *)
Definition projects_cycle (websocket : WebSocket) : M unit :=
  do analyzer <- get project_analyzer;
  run match analyzer with
      | Some _ =>
          do project_data <- external GetRealtimeAnalytics;
          run external (WsSendJson websocket project_data);
          ret tt
      | None => ret tt
      end;
  run external (AsyncioSleep 2);
  ret tt.

Definition websocket_projects (websocket : WebSocket) : M unit :=
  run external (WsAccept websocket);
  let connection_id := connection_id_of "projects_" websocket in
  run setitem_active_connections connection_id websocket;
  try_except
    (forever (projects_cycle websocket))
    (fun e =>
       match e with
       | WebSocketDisconnect _ =>
           run pop_active_connections connection_id;
           logging_info (Disconnected connection_id)
       | _ => raise e
       end).

(** The body of the [while True] of [websocket_portfolio]. *)
Definition portfolio_cycle (websocket : WebSocket) : M unit :=
  do optimizer <- get portfolio_optimizer;
  run match optimizer with
      | Some _ =>
          do portfolio_data <- external GetRealtimePortfolio;
          run external (WsSendJson websocket portfolio_data);
          ret tt
      | None => ret tt
      end;
  run external (AsyncioSleep 5);
  ret tt.

Definition websocket_portfolio (websocket : WebSocket) : M unit :=
  run external (WsAccept websocket);
  let connection_id := connection_id_of "portfolio_" websocket in
  run setitem_active_connections connection_id websocket;
  try_except
    (forever (portfolio_cycle websocket))
    (fun e =>
       match e with
       | WebSocketDisconnect _ =>
           run pop_active_connections connection_id;
           logging_info (Disconnected connection_id)
       | _ => raise e
       end).

(** The body of the [while True] of [websocket_alerts]. *)
Definition alerts_cycle (websocket : WebSocket) : M unit :=
  do analyzer <- get risk_analyzer;
  run match analyzer with
      | Some _ =>
          do alerts <- external GetActiveAlerts;
          if truthy alerts
          then run external (WsSendJson websocket alerts); ret tt
          else ret tt
      | None => ret tt
      end;
  run external (AsyncioSleep 10);
  ret tt.

Definition websocket_alerts (websocket : WebSocket) : M unit :=
  run external (WsAccept websocket);
  let connection_id := connection_id_of "alerts_" websocket in
  run setitem_active_connections connection_id websocket;
  try_except
    (forever (alerts_cycle websocket))
    (fun e =>
       match e with
       | WebSocketDisconnect _ =>
           run pop_active_connections connection_id;
           logging_info (Disconnected connection_id)
       | _ => raise e
       end).

(** ** The three endpoints, by topic *)

Definition handler (t : topic) : WebSocket -> M unit :=
  match t with
  | Project => websocket_projects
  | Portfolio => websocket_portfolio
  | Alert => websocket_alerts
  end.

Definition cycle (t : topic) : WebSocket -> M unit :=
  match t with
  | Project => projects_cycle
  | Portfolio => portfolio_cycle
  | Alert => alerts_cycle
  end.

Definition session_id (t : topic) (websocket : WebSocket) : string :=
  match t with
  | Project => connection_id_of "projects_" websocket
  | Portfolio => connection_id_of "portfolio_" websocket
  | Alert => connection_id_of "alerts_" websocket
  end.

(** The number each endpoint passes to [asyncio.sleep]. *)
Definition interval (t : topic) : N :=
  match t with
  | Project => 2
  | Portfolio => 5
  | Alert => 10
  end.

(** The engine method each endpoint polls. *)
Definition fetch_of (t : topic) : callee :=
  match t with
  | Project => GetRealtimeAnalytics
  | Portfolio => GetRealtimePortfolio
  | Alert => GetActiveAlerts
  end.

(** The test [if project_analyzer:] and its two siblings. *)
Definition is_set {A} (global : option A) : bool :=
  match global with
  | Some _ => true
  | None => false
  end.

Definition engine_set (t : topic) (w : world) : bool :=
  match t with
  | Project => is_set (project_analyzer w)
  | Portfolio => is_set (portfolio_optimizer w)
  | Alert => is_set (risk_analyzer w)
  end.

(** ** The shape the three endpoints share *)

(** The [except WebSocketDisconnect:] clause; any other exception is not
    caught. *)
Definition on_disconnect (connection_id : string) (e : exn) : M unit :=
  match e with
  | WebSocketDisconnect _ =>
      run pop_active_connections connection_id;
      logging_info (Disconnected connection_id)
  | _ => raise e
  end.

(** An endpoint, given its connection identifier and its loop body. *)
Definition endpoint (connection_id : string) (body : M unit)
    (websocket : WebSocket) : M unit :=
  run external (WsAccept websocket);
  run setitem_active_connections connection_id websocket;
  try_except (forever body) (on_disconnect connection_id).


(** The state in which the loop starts: accepted and registered. *)
Definition registered (connection_id : string) (websocket : WebSocket)
    (dt : N) (rest : list response) (w : world) : world :=
  with_active_connections
    (dict_setitem connection_id websocket (active_connections w))
    (emit (Return (WsAccept websocket))
       (answered dt rest (emit (Call (WsAccept websocket)) w))).

(** ** Scripts *)

(** Responses of the environment. *)
Definition ok (dt : N) : response := {| took := dt; answer := Returns JNull |}.
Definition gives (dt : N) (v : json) : response := {| took := dt; answer := Returns v |}.
Definition fails (dt : N) (e : exn) : response := {| took := dt; answer := Raises e |}.

Definition returned (r : response) : bool :=
  match answer r with
  | Returns _ => true
  | Raises _ => false
  end.

(** The time a list of calls took. *)
Definition total_took (rs : list response) : N :=
  foldr (fun r acc => (took r + acc)%N) 0%N rs.

(** The environment supplies further responses to a suspended program. *)
Definition feed (script : list response) (w : world) : world :=
  World (project_analyzer w) (portfolio_optimizer w) (risk_analyzer w)
        (data_collector w) (active_connections w) (now w) (trace w) script.

(** ** Reading a trace *)

(** What happened between two states, in the order it happened. *)
Definition since (w w' : world) : list event :=
  rev (take (length (trace w') - length (trace w)) (trace w')).
Arguments since : simpl never.

(** The frames that reached [websocket], oldest first. *)
Fixpoint frames_to (websocket : WebSocket) (tr : list event) : list json :=
  match tr with
  | [] => []
  | Return (WsSendJson ws data) :: tr' =>
      if same_socket ws websocket
      then data :: frames_to websocket tr'
      else frames_to websocket tr'
  | _ :: tr' => frames_to websocket tr'
  end.

(** Calls to an engine's snapshot method. *)
Definition is_fetch (e : event) : bool :=
  match e with
  | Call GetRealtimeAnalytics | Call GetRealtimePortfolio | Call GetActiveAlerts => true
  | _ => false
  end.

(** Attempts to send, successful or not. *)
Definition is_send (e : event) : bool :=
  match e with
  | Call (WsSendJson _ _) => true
  | _ => false
  end.

(** Neither a fetch from an engine nor a send to a client. *)
Definition silent (e : event) : bool :=
  match e with
  | Call c | Return c =>
      match c with
      | GetRealtimeAnalytics | GetRealtimePortfolio | GetActiveAlerts
      | WsSendJson _ _ => false
      | _ => true
      end
  | _ => true
  end.

Definition anything (e : event) : bool := true.

(** The calls made, in order. *)
Fixpoint calls_in (tr : list event) : list callee :=
  match tr with
  | [] => []
  | Call c :: tr' => c :: calls_in tr'
  | _ :: tr' => calls_in tr'
  end.

(** Calls that were made and returned, one after the other. *)
Definition completed (cs : list callee) : list event :=
  flat_map (fun c => [Call c; Return c]) cs.

(** The external calls of start-up, in the order of the source. *)
Definition startup_calls : list callee :=
  [New "ProjectConfig"; New "ProjectDataCollector"; New "ProjectAnalyzer";
   New "PortfolioOptimizer"; New "RiskAnalyzer"; DataCollectorStart; LoadModels].

(** The first five events of a cycle that fetches and sends. *)
Definition fetch_send_sleep (t : topic) (ws : WebSocket) (v : json) : list event :=
  [Call (fetch_of t); Return (fetch_of t);
   Call (WsSendJson ws v); Return (WsSendJson ws v);
   Call (AsyncioSleep (interval t))].

(** ** Relations between the state before and after a run *)

(** [R] relates the state before a program to the state after it,
    whatever the program's outcome. *)
Definition preserved (R : world → world → Prop) {A} (m : M A) : Prop :=
  ∀ w, R w (m w).2.

(** The trace only grows, here by events that all satisfy [P]. *)
Definition grows (P : event → bool) (w w' : world) : Prop :=
  ∃ new, trace w' = rev new ++ trace w ∧ forallb P new = true.

(** The registry is left alone. *)
Definition same_registry (w w' : world) : Prop :=
  active_connections w' = active_connections w.

(** While the engine of topic [t] is unset, it stays unset and nothing is
    fetched or sent. *)
Definition unset_and_silent (t : topic) (w w' : world) : Prop :=
  engine_set t w = false → engine_set t w' = false ∧ grows silent w w'.

(** A loop body that uses up at least one response whenever it completes. *)
Definition consuming (body : M unit) : Prop :=
  ∀ w w', body w = (Ok tt, w') → length (pending w') < length (pending w).

(** ** Scenarios *)

Definition ws_a : WebSocket := {| connection := 1; py_id := 140234 |}.
Definition ws_b : WebSocket := {| connection := 2; py_id := 140777 |}.

(** A later connection whose object got the address of [ws_a], freed by
    then. *)
Definition ws_c : WebSocket := {| connection := 3; py_id := 140234 |}.

Definition analytics_down : exn := Exception "analytics backend unreachable".

Definition open_projects : json := JDict [("open_projects", JNum 3)].

(** A world in which start-up has completed: the state [lifespan] leaves
    at its [yield] when every step succeeded, with a new script. *)
Definition serving (script : list response) : world :=
  feed script
    (lifespan_startup (boot [ok 0; ok 0; ok 0; ok 0; ok 0; ok 0; ok 0])).2.

(** Start-up suspended in [load_models]: the collector has started, the
    models are not loaded yet. *)
Definition loading_models : world :=
  (lifespan_startup (boot [ok 0; ok 0; ok 0; ok 0; ok 0; ok 0])).2.

(** Two sessions are open, each handler suspended in its [asyncio.sleep],
    when the environment is about to answer one more call. *)
Definition two_open_sessions : world :=
  let w1 := (websocket_projects ws_a
               (serving [ok 0; gives 0 open_projects; ok 0])).2 in
  let w2 := (websocket_alerts ws_b (feed [ok 0; gives 0 (JList [])] w1)).2 in
  feed [ok 0] w2.

(** Two sessions are open on the projects endpoint, each handler suspended
    in its [asyncio.sleep]. *)
Definition two_project_sessions : world :=
  let w1 := (websocket_projects ws_a
               (serving [ok 0; gives 0 open_projects; ok 0])).2 in
  (websocket_projects ws_b (feed [ok 0; gives 0 open_projects; ok 0] w1)).2.

(** ** Statements of the specification that the code does not meet *)


(** When the shut-down part of [lifespan] has returned, no session is
    registered any more. *)
Definition shutdown_deregisters (w : world) : Prop :=
  let out := lifespan_shutdown w in
  out.1 = Ok tt → active_connections out.2 = ∅.


(** Every session registered on topic [t] receives the frame [v] of a cycle
    of that topic. *)
Definition cycle_serves_every_subscriber (t : topic) (ws : WebSocket)
    (w : world) (v : json) : Prop :=
  ∀ other, active_connections w !! session_id t other = Some other →
           frames_to other (since w (cycle t ws w).2) = [v].

(** The next cycle starts exactly one interval after this one started. *)
Definition cadence_is_interval (t : topic) (ws : WebSocket) (w : world) : Prop :=
  ∀ w', cycle t ws w = (Ok tt, w') → now w' = (now w + interval t)%N.

(** The project analyzer counts as ready only once its models are loaded. *)
Definition ready_only_after_load (w : world) : Prop :=
  engine_set Project w = true → In (Return LoadModels) (trace w).

(** ** Vocabulary of sessions over many cycles *)

(** The four module globals are what they were. *)
Definition same_globals (w w' : world) : Prop :=
  project_analyzer w' = project_analyzer w
  ∧ portfolio_optimizer w' = portfolio_optimizer w
  ∧ risk_analyzer w' = risk_analyzer w
  ∧ data_collector w' = data_collector w.

(** The globals and every registry entry but the one under [id] are what
    they were. *)
Definition isolated (id : string) (w w' : world) : Prop :=
  same_globals w w'
  ∧ ∀ key, key ≠ id → active_connections w' !! key = active_connections w !! key.

(** The calls the handler of topic [t] for [ws] makes. *)
Definition own_call (t : topic) (ws : WebSocket) (c : callee) : bool :=
  match c with
  | WsAccept ws' | WsSendJson ws' _ => same_socket ws' ws
  | AsyncioSleep secs => (secs =? interval t)%N
  | GetRealtimeAnalytics => match t with Project => true | _ => false end
  | GetRealtimePortfolio => match t with Portfolio => true | _ => false end
  | GetActiveAlerts => match t with Alert => true | _ => false end
  | _ => false
  end.

Definition own_event (t : topic) (ws : WebSocket) (e : event) : bool :=
  match e with
  | Call c | Return c => own_call t ws c
  | LogInfo (Disconnected id) => String.eqb id (session_id t ws)
  | _ => false
  end.

(** One pass of a loop in which every call returns: the fetch takes
    [fetch_took] and returns [snapshot], the send (when there is one) takes
    [send_took]. *)
Record round : Type := { fetch_took : N; snapshot : json; send_took : N }.

(** The alerts endpoint sends nothing for a snapshot that is false in a
    boolean context; the other two always send. *)
Definition skipped (t : topic) (v : json) : bool :=
  match t with
  | Alert => negb (truthy v)
  | _ => false
  end.

(** The first events of a pass whose fetch returned [v]: up to the call of
    the sleep, with the send or, when the snapshot is skipped, without. *)
Definition first_pass (t : topic) (ws : WebSocket) (v : json) : list event :=
  if skipped t v
  then [Call (fetch_of t); Return (fetch_of t); Call (AsyncioSleep (interval t))]
  else fetch_send_sleep t ws v.

(** What happened before [asyncio.sleep] was first called. *)
Fixpoint before_first_sleep (tr : list event) : list event :=
  match tr with
  | [] => []
  | Call (AsyncioSleep _) :: _ => []
  | e :: tr' => e :: before_first_sleep tr'
  end.

(** A frame has reached the session before its handler first went to
    sleep. *)
Definition first_frame_precedes_first_sleep (t : topic) (ws : WebSocket)
    (w : world) : Prop :=
  frames_to ws (before_first_sleep (since w (handler t ws w).2)) ≠ [].

(** What the environment answers in such a pass: to the fetch, to the send
    when there is one, to the sleep. *)
Definition round_script (t : topic) (r : round) : list response :=
  if skipped t (snapshot r)
  then [gives (fetch_took r) (snapshot r); ok 0]
  else [gives (fetch_took r) (snapshot r); ok (send_took r); ok 0].

Definition rounds_script (t : topic) (rs : list round) : list response :=
  flat_map (round_script t) rs.

(** The snapshots that are sent. *)
Definition delivered (t : topic) (rs : list round) : list json :=
  List.filter (fun v => negb (skipped t v)) (map snapshot rs).

Definition round_time (t : topic) (r : round) : N :=
  (fetch_took r + (if skipped t (snapshot r) then 0 else send_took r)
   + interval t)%N.

Definition rounds_time (t : topic) (rs : list round) : N :=
  foldr (fun r acc => (round_time t r + acc)%N) 0%N rs.

(** The events of a start-up in which every call returns. *)
Definition started : list event :=
  LogInfo Starting :: completed startup_calls ++ [LogInfo Initialized].

(** The events of a shut-down that stops the collector. *)
Definition stopped : list event :=
  [LogInfo ShuttingDown; Call DataCollectorStop; Return DataCollectorStop;
   LogInfo ShutdownComplete].

(** * Properties *)

Lemma since_app (w w' : world) (new : list event) :
  trace w' = rev new ++ trace w → since w w' = new.
Proof.
  intros E. unfold since. rewrite E, length_app, Nat.add_sub.
  rewrite take_app_length. apply rev_involutive.
Qed.

Lemma same_socket_refl (ws : WebSocket) : same_socket ws ws = true.
Proof. unfold same_socket. by rewrite !N.eqb_refl. Qed.

Lemma same_socket_eq (a b : WebSocket) : same_socket a b = true → a = b.
Proof.
  destruct a, b. unfold same_socket. cbn.
  intros [->%N.eqb_eq ->%N.eqb_eq]%andb_prop. reflexivity.
Qed.

(** ** The registry operations *)

Section Registry.

Implicit Types (key other : string) (w : world) (d : gmap string WebSocket).

Lemma with_active_connections_same w :
  with_active_connections (active_connections w) w = w.
Proof. by destruct w. Qed.

Lemma pop_absent key w :
  active_connections w !! key = None →
  pop_active_connections key w = (Ok None, w).
Proof.
  intros Habs. unfold pop_active_connections, dict_pop. rewrite Habs.
  rewrite delete_id by done. by rewrite with_active_connections_same.
Qed.

Lemma pop_present key w :
  (pop_active_connections key w).1 = Ok (active_connections w !! key)
  ∧ active_connections (pop_active_connections key w).2
    = delete key (active_connections w).
Proof. by destruct w. Qed.

End Registry.

(** C9: [active_connections.pop(connection_id, None)] never raises; it
    returns the entry it found, if any.  Popping an absent identifier leaves
    the whole state as it was, so popping the same identifier a second time
    is such a no-op; every entry under another identifier is kept. *)
Theorem pop_is_idempotent (key : string) (w : world) :
  let first := pop_active_connections key w in
  let second := pop_active_connections key first.2 in
  first.1 = Ok (active_connections w !! key)
  ∧ active_connections first.2 !! key = None
  ∧ second = (Ok None, first.2)
  ∧ (active_connections w !! key = None → first = (Ok None, w))
  ∧ (∀ other, other ≠ key →
       active_connections first.2 !! other = active_connections w !! other).
Proof.
  intros first second.
  destruct (pop_present key w) as [Hres Hmap].
  assert (Hgone : active_connections first.2 !! key = None).
  { subst first. rewrite Hmap. apply lookup_delete_eq. }
  split_and!.
  - exact Hres.
  - exact Hgone.
  - subst second. by apply pop_absent.
  - intros Habs. subst first. by apply pop_absent.
  - intros other Hne. subst first. rewrite Hmap. by apply lookup_delete_ne.
Qed.

Lemma pop_is_idempotent_witness :
  let w := (setitem_active_connections "portfolio_140777" ws_b
             (setitem_active_connections "projects_140234" ws_a (boot [])).2).2 in
  (pop_active_connections "projects_140234"
     (pop_active_connections "projects_140234" w).2)
  = (Ok None, (pop_active_connections "projects_140234" w).2)
  ∧ active_connections (pop_active_connections "projects_140234" w).2
      !! "portfolio_140777" = Some ws_b.
Proof.
  intros w.
  destruct (pop_is_idempotent "projects_140234" w) as (_ & _ & Htwice & _ & Hother).
  split.
  - exact Htwice.
  - rewrite Hother by discriminate. vm_compute. reflexivity.
Defined.

(** ** Start-up and shut-down *)

(** Goals about a run over an explicit script are settled by running it. *)
Ltac by_run := vm_compute; reflexivity.
Ltac since_by_trace := apply since_app; by_run.

Ltac peel good HF :=
  destruct good as [|[? [?|?]] good]; simpl in HF; try discriminate HF.

(** C7: [lifespan] constructs the configuration, then the data collector,
    the project analyzer, the portfolio optimizer and the risk analyzer,
    then runs the collector's [start] and, once that has returned, the
    analyzer's [load_models]: each call is made only after the one before it
    has returned.  When all seven return, start-up succeeds.  When one of
    them raises, no later step is made and the exception reaches the caller
    of [lifespan] (after an error line in the log, for an [Exception]). *)
Theorem startup_in_order_and_fail_fast (w : world) :
  let out := lifespan_startup w in
  (∀ good rest,
     pending w = good ++ rest → length good = 7 → forallb returned good = true →
     out.1 = Ok tt
     ∧ since w out.2
       = LogInfo Starting :: completed startup_calls ++ [LogInfo Initialized]
     ∧ pending out.2 = rest)
  ∧ (∀ good dt e rest c,
       pending w = good ++ fails dt e :: rest → forallb returned good = true →
       startup_calls !! length good = Some c →
       out.1 = Raise e
       ∧ since w out.2
         = LogInfo Starting :: completed (take (length good) startup_calls)
           ++ Call c :: (if isinstance_Exception e
                         then [LogError (FailedToInitialize e)] else [])
       ∧ pending out.2 = rest).
Proof.
  intros out. subst out. split.
  - intros good rest Hp Hlen HF.
    do 7 (peel good HF; [discriminate Hlen|]).
    destruct good; [|discriminate Hlen].
    destruct w as [pa po ra dc conns t0 tr script]; cbn in Hp; subst.
    split_and!; [by_run | since_by_trace | by_run].
  - intros good dt e rest c Hp HF Hc.
    do 7 (peel good HF;
          [ destruct w as [pa po ra dc conns t0 tr script]; cbn in Hp, Hc;
            subst; injection Hc as <-; destruct e;
            (split_and!; [by_run | since_by_trace | by_run]) |]).
    destruct good; discriminate Hc.
Qed.

Lemma startup_in_order_and_fail_fast_witness :
  (lifespan_startup (boot [ok 0; ok 0; ok 0; ok 0; ok 0; ok 4; ok 9])).1 = Ok tt
  ∧ (lifespan_startup
       (boot [ok 0; ok 0; ok 0; ok 0; ok 0;
              fails 1 (Exception "collector down"); ok 9])).1
    = Raise (Exception "collector down")
  ∧ pending (lifespan_startup
       (boot [ok 0; ok 0; ok 0; ok 0; ok 0;
              fails 1 (Exception "collector down"); ok 9])).2
    = [ok 9].
Proof.
  split.
  - destruct (startup_in_order_and_fail_fast
                (boot [ok 0; ok 0; ok 0; ok 0; ok 0; ok 4; ok 9])) as [Hall _].
    destruct (Hall [ok 0; ok 0; ok 0; ok 0; ok 0; ok 4; ok 9] [])
      as (Hok & _ & _); [reflexivity | reflexivity | reflexivity | exact Hok].
  - destruct (startup_in_order_and_fail_fast
                (boot [ok 0; ok 0; ok 0; ok 0; ok 0;
                       fails 1 (Exception "collector down"); ok 9])) as [_ Hfail].
    destruct (Hfail [ok 0; ok 0; ok 0; ok 0; ok 0] 1%N
                (Exception "collector down") [ok 9] DataCollectorStart)
      as (Hraise & _ & Hrest); [reflexivity | reflexivity | reflexivity |].
    split; [exact Hraise | exact Hrest].
Defined.

(** The trace a run adds, read off by running it. *)
Ltac added_events t tl :=
  lazymatch t with
  | tl => constr:(@nil event)
  | ?e :: ?t' => let r := added_events t' tl in constr:(r ++ [e])
  end.

Ltac since_run :=
  match goal with
  | |- context [since ?w ?w'] =>
      let t := eval vm_compute in (trace w') in
      let tl := eval vm_compute in (trace w) in
      let new := added_events t tl in
      let new := eval cbn in new in
      rewrite (since_app w w' new) by by_run
  end.

(** C5, as stated, fails: with two sessions open, shut-down returns and both
    are still in the registry. *)
Lemma shutdown_keeps_sessions : ¬ shutdown_deregisters two_open_sessions.
Proof.
  unfold shutdown_deregisters. intros H.
  assert (Hret : (lifespan_shutdown two_open_sessions).1 = Ok tt) by by_run.
  specialize (H Hret).
  apply (f_equal (fun d => d !! "projects_140234")) in H.
  vm_compute in H. discriminate H.
Qed.

(** C5, amended: the shut-down part of [lifespan] makes one external call at
    most, the data collector's [stop], and makes it exactly when a collector
    was constructed; it returns once that call has returned.  It signals no
    session handler and leaves the session registry as it found it, whatever
    sessions are open. *)
Theorem shutdown_only_stops_collector (w : world) :
  let out := lifespan_shutdown w in
  active_connections out.2 = active_connections w
  ∧ calls_in (since w out.2)
    = (if is_set (data_collector w) then [DataCollectorStop] else [])
  ∧ (is_set (data_collector w) = true → out.1 = Ok tt →
     In (Return DataCollectorStop) (since w out.2))
  ∧ (∀ r rest, pending w = r :: rest → returned r = true → out.1 = Ok tt).
Proof.
  intros out. subst out.
  destruct w as [pa po ra [dc|] conns t0 tr [|[tk [v|e]] script]];
    (split_and!;
     [ by_run
     | since_run; reflexivity
     | intros Hset Hret; first [discriminate Hset | discriminate Hret
                               | since_run; cbn; tauto]
     | intros r rest Hp Hr; first [discriminate Hp | by_run
                                  | injection Hp as <- <-; discriminate Hr] ]).
Qed.

Lemma shutdown_only_stops_collector_witness :
  (lifespan_shutdown two_open_sessions).1 = Ok tt
  ∧ In (Return DataCollectorStop)
       (since two_open_sessions (lifespan_shutdown two_open_sessions).2)
  ∧ active_connections (lifespan_shutdown two_open_sessions).2
    = active_connections two_open_sessions.
Proof.
  destruct (shutdown_only_stops_collector two_open_sessions)
    as (Hreg & _ & Hstop & Hret).
  assert (Hok : (lifespan_shutdown two_open_sessions).1 = Ok tt).
  { apply (Hret (ok 0) []); reflexivity. }
  split_and!.
  - exact Hok.
  - apply Hstop; [reflexivity | exact Hok].
  - exact Hreg.
Defined.

(** ** Reasoning about runs of any length *)

Section Preserved.

Context (R : world → world → Prop) `{!PreOrder R}.

Lemma preserved_ret {A} (a : A) : preserved R (ret a).
Proof. intros w. reflexivity. Qed.

Lemma preserved_raise {A} (e : exn) : preserved R (@raise A e).
Proof. intros w. reflexivity. Qed.

Lemma preserved_get {A} (field : world → A) : preserved R (get field).
Proof. intros w. reflexivity. Qed.

Lemma preserved_bind {A B} (m : M A) (k : A → M B) :
  preserved R m → (∀ a, preserved R (k a)) → preserved R (bind m k).
Proof.
  intros Hm Hk w. unfold bind. specialize (Hm w).
  destruct (m w) as [[a|e|] w1]; cbn in *; try exact Hm.
  transitivity w1; [exact Hm | apply Hk].
Qed.

Lemma preserved_try_except {A} (m : M A) (h : exn → M A) :
  preserved R m → (∀ e, preserved R (h e)) → preserved R (try_except m h).
Proof.
  intros Hm Hh w. unfold try_except. specialize (Hm w).
  destruct (m w) as [[a|e|] w1]; cbn in *; try exact Hm.
  transitivity w1; [exact Hm | apply Hh].
Qed.

Lemma preserved_while_True (fuel : nat) (body : M unit) :
  preserved R body → preserved R (while_True fuel body).
Proof.
  intros Hbody. induction fuel as [|fuel IH]; cbn.
  - intros w. reflexivity.
  - apply preserved_bind; [exact Hbody | intros _; exact IH].
Qed.

Lemma preserved_forever (body : M unit) :
  preserved R body → preserved R (forever body).
Proof. intros Hbody w. unfold forever. by apply preserved_while_True. Qed.

End Preserved.

(** [while True] has no [break]: the loop never falls through. *)
Lemma while_True_never_returns (fuel : nat) (body : M unit) (w : world) :
  (while_True fuel body w).1 ≠ Ok tt.
Proof.
  revert w. induction fuel as [|fuel IH]; intros w; cbn; [discriminate|].
  unfold bind. destruct (body w) as [[[]|e|] w1]; cbn; [apply IH | discriminate ..].
Qed.

(** The fuel [forever] gives is enough: with any larger amount the loop
    does the same. *)
Lemma while_True_fuel (body : M unit) (Hbody : consuming body) (n m : nat) (w : world) :
  length (pending w) < n → length (pending w) < m →
  while_True n body w = while_True m body w.
Proof.
  revert m w. induction n as [|n IH]; intros m w Hn Hm; [lia|].
  destruct m as [|m]; [lia|]. cbn. unfold bind.
  destruct (body w) as [[[]|e|] w1] eqn:Hrun; try reflexivity.
  apply Hbody in Hrun. apply IH; lia.
Qed.

#[global] Instance grows_preorder (P : event → bool) : PreOrder (grows P).
Proof.
  split.
  - intros w. by exists [].
  - intros w1 w2 w3 (n1 & E1 & F1) (n2 & E2 & F2). exists (n1 ++ n2). split.
    + rewrite E2, E1, rev_app_distr. by rewrite app_assoc.
    + rewrite forallb_app, F1, F2. reflexivity.
Qed.

Lemma grows_since (P : event → bool) (w w' : world) :
  grows P w w' → forallb P (since w w') = true.
Proof. intros (new & E & F). by rewrite (since_app _ _ _ E). Qed.

#[global] Instance same_registry_preorder : PreOrder same_registry.
Proof.
  split.
  - intros w. reflexivity.
  - intros w1 w2 w3 E1 E2. unfold same_registry in *. congruence.
Qed.

#[global] Instance unset_and_silent_preorder (t : topic) :
  PreOrder (unset_and_silent t).
Proof.
  split.
  - intros w Hw. split; [exact Hw | reflexivity].
  - intros w1 w2 w3 H12 H23 Hw. destruct (H12 Hw) as [Hw2 G12].
    destruct (H23 Hw2) as [Hw3 G23]. split; [exact Hw3 | by transitivity w2].
Qed.

Lemma silent_no_traffic (ws : WebSocket) (new : list event) :
  forallb silent new = true →
  existsb is_fetch new = false ∧ existsb is_send new = false
  ∧ frames_to ws new = [].
Proof.
  induction new as [|e new IH]; cbn; [done|].
  intros [He Hnew]%andb_prop. destruct (IH Hnew) as (IH1 & IH2 & IH3).
  destruct e as [c|c|m|m]; try destruct c; cbn in *; try discriminate He; done.
Qed.

(** *** What single steps respect *)

Ltac split_script s := destruct s as [|[? [?|?]] s].
Ltac split_run s :=
  split_script s; [ | split_script s; [ | split_script s | ] | ].

Ltac run_in H :=
  cbv [cycle projects_cycle portfolio_cycle alerts_cycle external bind ret get
       raise emit answered duration pending trace now active_connections
       project_analyzer portfolio_optimizer risk_analyzer data_collector
       answer took fst snd] in H.

Ltac run_goal :=
  cbv [cycle projects_cycle portfolio_cycle alerts_cycle external bind ret get
       raise emit answered duration pending trace now active_connections
       project_analyzer portfolio_optimizer risk_analyzer data_collector
       setitem_active_connections pop_active_connections dict_setitem dict_pop
       modify logging_info with_active_connections engine_set is_set
       answer took fst snd].

Ltac show_grows :=
  run_goal;
  first [ by exists [] | by eexists [_] | by eexists [_; _]
        | by eexists [_; _; _] | by eexists [_; _; _; _]
        | by eexists [_; _; _; _; _] | by eexists [_; _; _; _; _; _] ].

Lemma external_grows (P : event → bool) (c : callee) :
  P (Call c) = true → P (Return c) = true → preserved (grows P) (external c).
Proof.
  intros HC HR [pa po ra dc conns t0 tr script].
  split_script script; run_goal.
  - exists [Call c]. cbn. by rewrite HC.
  - exists [Call c; Return c]. cbn. by rewrite HC, HR.
  - exists [Call c]. cbn. by rewrite HC.
Qed.

Lemma external_same_registry (c : callee) : preserved same_registry (external c).
Proof. intros [pa po ra dc conns t0 tr script]. by split_script script. Qed.

Lemma cycle_grows (t : topic) (ws : WebSocket) :
  preserved (grows anything) (cycle t ws).
Proof.
  intros [pa po ra dc conns t0 tr script].
  destruct t;
    [destruct pa as [a|] | destruct po as [a|] | destruct ra as [a|]];
    split_run script; run_goal; try destruct (truthy _); show_grows.
Qed.

Lemma cycle_same_registry (t : topic) (ws : WebSocket) :
  preserved same_registry (cycle t ws).
Proof.
  intros [pa po ra dc conns t0 tr script].
  destruct t;
    [destruct pa as [a|] | destruct po as [a|] | destruct ra as [a|]];
    split_run script; run_goal; try destruct (truthy _); reflexivity.
Qed.

Lemma cycle_unset_silent (t : topic) (ws : WebSocket) :
  preserved (unset_and_silent t) (cycle t ws).
Proof.
  intros [pa po ra dc conns t0 tr script] Hw.
  destruct t;
    [destruct pa as [a|] | destruct po as [a|] | destruct ra as [a|]];
    try discriminate Hw;
    (split; [by split_script script | split_script script; show_grows]).
Qed.

Lemma cycle_consuming (t : topic) (ws : WebSocket) : consuming (cycle t ws).
Proof.
  intros [pa po ra dc conns t0 tr script] w' Hrun.
  destruct t;
    [destruct pa as [a|] | destruct po as [a|] | destruct ra as [a|]];
    split_run script; run_in Hrun; try destruct (truthy _);
    try discriminate Hrun; injection Hrun as <-; cbn; lia.
Qed.

(** The loops of the endpoints never stop for lack of fuel. *)
Lemma forever_fuel (t : topic) (ws : WebSocket) (w : world) (fuel : nat) :
  length (pending w) < fuel →
  forever (cycle t ws) w = while_True fuel (cycle t ws) w.
Proof.
  intros Hfuel. unfold forever.
  apply while_True_fuel; [apply cycle_consuming | lia | exact Hfuel].
Qed.

(** *** The three endpoints have one shape *)

Lemma handler_unfold (t : topic) (ws : WebSocket) :
  handler t ws = endpoint (session_id t ws) (cycle t ws) ws.
Proof. by destruct t. Qed.

Lemma endpoint_accepted id body ws (w : world) dt v rest :
  pending w = gives dt v :: rest →
  endpoint id body ws w
  = try_except (forever body) (on_disconnect id) (registered id ws dt rest w).
Proof.
  destruct w as [pa po ra dc conns t0 tr script]. cbn. intros ->. reflexivity.
Qed.

Lemma returned_gives (r : response) :
  returned r = true → ∃ dt v, r = gives dt v.
Proof. destruct r as [dt [v|e]]; [by exists dt, v | discriminate]. Qed.

Section Disconnect.

Context (id : string).

Lemma on_disconnect_grows (e : exn) :
  preserved (grows anything) (on_disconnect id e).
Proof.
  intros [pa po ra dc conns t0 tr script]. destruct e; cbn.
  - by exists [LogInfo (Disconnected id)].
  - by exists [].
  - by exists [].
Qed.

End Disconnect.

(** The first pass through a loop inside [try]: what follows it respects
    whatever the rest of the loop and the handler respect. *)
Lemma try_except_bind_first (R : world → world → Prop) `{!PreOrder R}
    (body : M unit) (k : unit → M unit) (h : exn → M unit)
    (w : world) (r1 : result unit) (w1 : world) :
  body w = (r1, w1) →
  preserved R (try_except (k tt) h) → (∀ e, preserved R (h e)) →
  R w1 (try_except (bind body k) h w).2.
Proof.
  intros Hbody Hk Hh. unfold try_except, bind. rewrite Hbody.
  destruct r1 as [[]|e|]; cbn.
  - apply Hk.
  - apply Hh.
  - reflexivity.
Qed.

(** ** Termination of a session handler and the registry *)

(** When a handler returns, it has removed its entry: it returns only
    through the [except WebSocketDisconnect] clause. *)
Lemma handler_return_removes_entry (t : topic) (ws : WebSocket) (w w' : world) :
  handler t ws w = (Ok tt, w') →
  active_connections w' !! session_id t ws = None.
Proof.
  rewrite handler_unfold. intros Hrun.
  destruct (pending w) as [|[dt [v|e]] rest] eqn:Hp.
  - destruct w as [pa po ra dc conns t0 tr script]. cbn in Hp. subst.
    discriminate Hrun.
  - rewrite (endpoint_accepted _ _ _ _ dt v rest Hp) in Hrun.
    unfold try_except in Hrun.
    pose proof (while_True_never_returns
                  (S (length (pending (registered (session_id t ws) ws dt rest w))))
                  (cycle t ws) (registered (session_id t ws) ws dt rest w)) as Hnever.
    fold (forever (cycle t ws) (registered (session_id t ws) ws dt rest w)) in Hnever.
    destruct (forever _ _) as [[[]|e|] w3]; cbn in Hnever.
    + done.
    + destruct e; try discriminate Hrun.
      cbv [on_disconnect bind pop_active_connections dict_pop logging_info
           modify] in Hrun.
      injection Hrun as <-. destruct w3; cbn. apply lookup_delete_eq.
    + discriminate Hrun.
  - destruct w as [pa po ra dc conns t0 tr script]. cbn in Hp. subst.
    discriminate Hrun.
Qed.

(** C1: the code keeps the entry of a session whose handler was ended by an
    exception.  Once the connection was accepted, a handler that terminates
    by raising [e] (any exception of the loop other than
    [WebSocketDisconnect]: a failing fetch, a send that fails otherwise, a
    cancelled sleep) leaves [active_connections] still mapping the session's
    identifier to the session; nothing removes it later. *)
Theorem handler_error_keeps_entry (t : topic) (ws : WebSocket) (w w' : world)
    (ra : response) (rest : list response) (e : exn) :
  pending w = ra :: rest → returned ra = true →
  handler t ws w = (Raise e, w') →
  active_connections w' !! session_id t ws = Some ws.
Proof.
  intros Hp (dt & v & ->)%returned_gives. rewrite handler_unfold.
  rewrite (endpoint_accepted _ _ _ _ dt v rest Hp). unfold try_except.
  pose proof (preserved_forever same_registry _ (cycle_same_registry t ws)
                (registered (session_id t ws) ws dt rest w)) as Hreg.
  destruct (forever _ _) as [[[]|e3|] w3]; cbn in Hreg; intros Hrun.
  - discriminate Hrun.
  - destruct e3; cbn in Hrun; try discriminate Hrun;
      injection Hrun as _ <-; rewrite Hreg; apply lookup_insert_eq.
  - discriminate Hrun.
Qed.

Lemma handler_error_keeps_entry_witness :
  (websocket_projects ws_a (serving [ok 0; fails 1 analytics_down])).1
  = Raise analytics_down
  ∧ active_connections
      (websocket_projects ws_a (serving [ok 0; fails 1 analytics_down])).2
    !! "projects_140234" = Some ws_a.
Proof.
  split; [by_run|].
  apply (handler_error_keeps_entry Project ws_a
           (serving [ok 0; fails 1 analytics_down])
           (websocket_projects ws_a (serving [ok 0; fails 1 analytics_down])).2
           (ok 0) [fails 1 analytics_down] analytics_down);
    [reflexivity | reflexivity | by_run].
Defined.

(** ** One cycle of a handler *)

Ltac frames_by_run :=
  since_run; cbn; rewrite ?same_socket_refl; reflexivity.

(** Every way a value can be true or false in a boolean context. *)
Ltac case_json v := destruct v as [|[|]|[|?|?]|[|? ?]|[|? ?]|[|? ?]].

Ltac case_engine t pa po ra Hset :=
  destruct t;
  [destruct pa as [?|] | destruct po as [?|] | destruct ra as [?|]];
  try discriminate Hset.

Lemma same_socket_ne (a b : WebSocket) : a ≠ b → same_socket a b = false.
Proof.
  intros Hne. destruct (same_socket a b) eqn:Hsame; [|done].
  by apply same_socket_eq in Hsame.
Qed.

Ltac no_frames_by_run Hne :=
  since_run; cbn; rewrite ?Hne; reflexivity.

(** C6, as stated, fails: two sessions are registered on the projects topic;
    a cycle of the handler of the first delivers its frame to the first and
    nothing to the second. *)
Lemma cycle_skips_other_subscribers :
  ¬ cycle_serves_every_subscriber Project ws_a
      (feed [gives 0 open_projects; ok 0; ok 0] two_project_sessions)
      open_projects.
Proof.
  intros H.
  assert (Hsub : active_connections
                   (feed [gives 0 open_projects; ok 0; ok 0] two_project_sessions)
                   !! session_id Project ws_b = Some ws_b) by by_run.
  specialize (H ws_b Hsub). vm_compute in H. discriminate H.
Qed.

(** C6, amended: in a cycle whose engine is set and whose fetch returned
    [v], the alerts handler sends nothing when [v] is false in a boolean
    context (the empty list of alerts is), and does not even attempt to; the
    projects and the portfolio handler deliver exactly one frame, [v], to
    their own session whenever the send succeeds, whatever was delivered
    before ([w] is any state, its trace may hold that very frame).  The
    alerts handler delivers one frame too when there are alerts.  No other
    session receives anything from the cycle: each session is served by the
    cycles of its own handler only. *)
Theorem cycle_delivery (t : topic) (ws other : WebSocket) (w : world)
    (dt : N) (v : json) (r : response) (rest : list response) :
  engine_set t w = true →
  pending w = gives dt v :: r :: rest → returned r = true →
  let new := since w (cycle t ws w).2 in
  (t = Alert → truthy v = false →
     frames_to ws new = [] ∧ existsb is_send new = false)
  ∧ (t = Alert → truthy v = true → frames_to ws new = [v])
  ∧ (t ≠ Alert → frames_to ws new = [v])
  ∧ (other ≠ ws → frames_to other new = []).
Proof.
  intros Hset Hp (dtr & vr & ->)%returned_gives new. subst new.
  destruct w as [pa po ra dc conns t0 tr script]. cbn in Hp. subst script.
  case_engine t pa po ra Hset.
  - split_and!; [discriminate 1 | discriminate 1 | intros _ | intros Hne].
    + split_script rest; frames_by_run.
    + apply not_eq_sym, same_socket_ne in Hne.
      split_script rest; no_frames_by_run Hne.
  - split_and!; [discriminate 1 | discriminate 1 | intros _ | intros Hne].
    + split_script rest; frames_by_run.
    + apply not_eq_sym, same_socket_ne in Hne.
      split_script rest; no_frames_by_run Hne.
  - split_and!; [intros _ Hv | intros _ Hv | done | intros Hne].
    + case_json v; try discriminate Hv;
        (split; [frames_by_run | since_run; reflexivity]).
    + case_json v; try discriminate Hv; split_script rest; frames_by_run.
    + apply not_eq_sym, same_socket_ne in Hne.
      case_json v; split_script rest; no_frames_by_run Hne.
Qed.

Lemma cycle_delivery_witness :
  let quiet := serving [gives 0 (JList []); ok 0] in
  let busy := feed [gives 0 open_projects; ok 0; ok 0] two_project_sessions in
  frames_to ws_b (since quiet (cycle Alert ws_b quiet).2) = []
  ∧ frames_to ws_a (since busy (cycle Project ws_a busy).2) = [open_projects]
  ∧ frames_to ws_b (since busy (cycle Project ws_a busy).2) = [].
Proof.
  intros quiet busy. split_and!.
  - destruct (cycle_delivery Alert ws_b ws_a quiet 0 (JList []) (ok 0) [])
      as (Hnone & _ & _ & _); [by_run | by_run | by_run |].
    apply Hnone; by_run.
  - destruct (cycle_delivery Project ws_a ws_b busy 0 open_projects (ok 0) [ok 0])
      as (_ & _ & Hone & _); [by_run | by_run | by_run |].
    apply Hone. discriminate.
  - destruct (cycle_delivery Project ws_a ws_b busy 0 open_projects (ok 0) [ok 0])
      as (_ & _ & _ & Hother); [by_run | by_run | by_run |].
    apply Hother. discriminate.
Defined.

(** C8, as stated, fails: a fetch that takes one second puts the start of
    the next projects cycle three seconds after the start of this one. *)
Lemma cadence_drifts :
  ¬ cadence_is_interval Project ws_a (serving [gives 1 open_projects; ok 0; ok 0]).
Proof.
  intros H.
  specialize (H (projects_cycle ws_a
                   (serving [gives 1 open_projects; ok 0; ok 0])).2).
  assert (Hrun : cycle Project ws_a (serving [gives 1 open_projects; ok 0; ok 0])
                 = (Ok tt, (projects_cycle ws_a
                      (serving [gives 1 open_projects; ok 0; ok 0])).2)) by by_run.
  specialize (H Hrun). vm_compute in H. discriminate H.
Qed.

(** C8, amended: every cycle ends with one suspension whose length is fixed
    per topic: 2 seconds for projects, 5 for the portfolio, 10 for alerts,
    each a constant of its own handler.  A cycle that completes therefore
    puts the start of the next one at the time its own fetch and send took
    (nothing, when the engine is unset) plus that interval. *)
Theorem cycle_clock (t : topic) (ws : WebSocket) (w w' : world) :
  cycle t ws w = (Ok tt, w') →
  (interval Project, interval Portfolio, interval Alert) = (2, 5, 10)%N
  ∧ last (calls_in (since w w')) = Some (AsyncioSleep (interval t))
  ∧ ∃ (used : list response) (r : response),
      pending w = used ++ r :: pending w'
      ∧ (length used ≤ 2)%nat
      ∧ (engine_set t w = false → used = [])
      ∧ now w' = (now w + total_took used + interval t)%N.
Proof.
  intros Hrun. split; [reflexivity|].
  destruct w as [pa po ra dc conns t0 tr script].
  destruct t;
    [destruct pa as [a|] | destruct po as [a|] | destruct ra as [a|]];
    split_run script; run_in Hrun; try destruct (truthy _);
    try discriminate Hrun; injection Hrun as <-;
    (split; [since_run; reflexivity|]);
    first
      [ eexists [], _; split_and!;
        [reflexivity | cbn; lia | done | cbn; lia]
      | eexists [_], _; split_and!;
        [reflexivity | cbn; lia | done | cbn; lia]
      | eexists [_; _], _; split_and!;
        [reflexivity | cbn; lia | done | cbn; lia] ].
Qed.

Lemma cycle_clock_witness :
  let w := serving [gives 1 open_projects; ok 0; ok 0] in
  let w' := (cycle Project ws_a w).2 in
  last (calls_in (since w w')) = Some (AsyncioSleep 2)
  ∧ ∃ (used : list response) (r : response),
      pending w = used ++ r :: pending w'
      ∧ (length used ≤ 2)%nat
      ∧ (engine_set Project w = false → used = [])
      ∧ now w' = (now w + total_took used + 2)%N.
Proof.
  intros w w'.
  destruct (cycle_clock Project ws_a w w') as (_ & Hlast & Hclock); [by_run|].
  split; [exact Hlast | exact Hclock].
Defined.

(** ** Readiness *)

(** C4, as stated, fails: while [load_models] is still running the global
    [project_analyzer] is already set. *)
Lemma ready_before_models_loaded : ¬ ready_only_after_load loading_models.
Proof.
  intros H. assert (Hset : engine_set Project loading_models = true) by by_run.
  specialize (H Hset). vm_compute in H. intuition discriminate.
Qed.

(** A projects cycle that begins in that state fetches and delivers. *)
Lemma frame_before_models_loaded :
  let w := feed [gives 0 open_projects; ok 0] loading_models in
  (lifespan_startup (boot [ok 0; ok 0; ok 0; ok 0; ok 0; ok 0])).1 = Pending
  ∧ frames_to ws_a (since w (cycle Project ws_a w).2) = [open_projects].
Proof. intros w. split; by_run. Qed.

Ltac find_in := repeat (first [left; reflexivity | right]).

Ltac settle_flags :=
  split_and!; split; intros H; vm_compute in H |- *;
  first [reflexivity | discriminate H | solve [find_in]
        | solve [intuition discriminate]].

(** Each of the three globals is set exactly when its constructor has
    returned, wherever start-up stands or has stopped. *)
Lemma flag_set_by_constructor (script : list response) :
  let s := (lifespan_startup (boot script)).2 in
  (engine_set Project s = true
   ↔ In (Return (New "ProjectAnalyzer")) (trace s))
  ∧ (engine_set Portfolio s = true
     ↔ In (Return (New "PortfolioOptimizer")) (trace s))
  ∧ (engine_set Alert s = true
     ↔ In (Return (New "RiskAnalyzer")) (trace s)).
Proof.
  intros s. subst s.
  do 7 (split_script script;
        [ settle_flags
        |
        | match goal with e : exn |- _ => destruct e end; settle_flags ]).
  settle_flags.
Qed.

(** What a cycle calls, by the state of its topic's global. *)
Lemma cycle_calls (t : topic) (ws : WebSocket) (w : world) :
  (engine_set t w = false →
   calls_in (since w (cycle t ws w).2) = [AsyncioSleep (interval t)])
  ∧ (engine_set t w = true →
     head (calls_in (since w (cycle t ws w).2)) = Some (fetch_of t)).
Proof.
  destruct w as [pa po ra dc conns t0 tr script].
  split; intros Hset;
    (destruct t;
     [destruct pa as [a|] | destruct po as [a|] | destruct ra as [a|]];
     try discriminate Hset);
    split_run script; run_goal; try destruct (truthy _);
    since_run; reflexivity.
Qed.

(** C4, amended: a cycle that begins while its topic's global is unset
    fetches nothing and sends nothing, it only sleeps its interval; a cycle
    that begins once the global is set starts with the fetch.  This holds
    for every state a cycle may begin in, whatever ran before it.  Each
    global is set as soon as the constructor of its engine has returned,
    which for the project analyzer is before the data collector is started
    and before the models are loaded. *)
Theorem unset_engine_is_silent (t : topic) (ws : WebSocket) (w : world)
    (script : list response) :
  (engine_set t w = false →
     forallb silent (since w (cycle t ws w).2) = true
     ∧ frames_to ws (since w (cycle t ws w).2) = []
     ∧ calls_in (since w (cycle t ws w).2) = [AsyncioSleep (interval t)])
  ∧ (engine_set t w = true →
     head (calls_in (since w (cycle t ws w).2)) = Some (fetch_of t))
  ∧ (let s := (lifespan_startup (boot script)).2 in
     (engine_set Project s = true
      ↔ In (Return (New "ProjectAnalyzer")) (trace s))
     ∧ (engine_set Portfolio s = true
        ↔ In (Return (New "PortfolioOptimizer")) (trace s))
     ∧ (engine_set Alert s = true
        ↔ In (Return (New "RiskAnalyzer")) (trace s))).
Proof.
  destruct (cycle_calls t ws w) as [Hunset Hset].
  split_and!; [| exact Hset | apply flag_set_by_constructor].
  intros Hw.
  destruct (cycle_unset_silent t ws w Hw) as [_ Hcycle].
  apply grows_since in Hcycle. split_and!.
  - exact Hcycle.
  - by apply silent_no_traffic.
  - by apply Hunset.
Qed.

Lemma unset_engine_is_silent_witness :
  let w := boot [ok 0; ok 0; ok 0] in
  let s := (lifespan_startup (boot [ok 0; ok 0; ok 0; ok 0; ok 0; ok 0])).2 in
  frames_to ws_a (since w (cycle Project ws_a w).2) = []
  ∧ head (calls_in (since (feed [ok 0] s) (cycle Project ws_a (feed [ok 0] s)).2))
    = Some GetRealtimeAnalytics
  ∧ In (Return (New "ProjectAnalyzer")) (trace s).
Proof.
  intros w s.
  destruct (unset_engine_is_silent Project ws_a w
              [ok 0; ok 0; ok 0; ok 0; ok 0; ok 0]) as (Hsilent & _ & Hflag & _ & _).
  destruct (unset_engine_is_silent Project ws_a (feed [ok 0] s) [])
    as (_ & Hfetch & _).
  split_and!.
  - apply Hsilent. by_run.
  - apply Hfetch. by_run.
  - apply Hflag. by_run.
Defined.

(** ** The first frame of a session *)

Lemma registered_facts id ws dt rest (w : world) :
  trace (registered id ws dt rest w)
  = Return (WsAccept ws) :: Call (WsAccept ws) :: trace w
  ∧ pending (registered id ws dt rest w) = rest
  ∧ active_connections (registered id ws dt rest w) !! id = Some ws
  ∧ ∀ t, engine_set t (registered id ws dt rest w) = engine_set t w.
Proof.
  destruct w as [pa po ra dc conns t0 tr script].
  split_and!; [done | done | apply lookup_insert_eq | by intros []].
Qed.

Lemma first_cycle_trace (t : topic) (ws : WebSocket) (w : world)
    (dt : N) (v : json) (rs : response) (rest : list response) :
  engine_set t w = true →
  pending w = gives dt v :: rs :: rest → returned rs = true →
  ∃ more, trace (cycle t ws w).2
          = rev (first_pass t ws v ++ more) ++ trace w.
Proof.
  intros Hset Hp (dts & vs & ->)%returned_gives.
  destruct w as [pa po ra dc conns t0 tr script]. cbn in Hp. subst script.
  case_engine t pa po ra Hset.
  - split_script rest; [exists [] | eexists [_] | exists []]; by_run.
  - split_script rest; [exists [] | eexists [_] | exists []]; by_run.
  - case_json v;
      (split_script rest;
       first [ exists []; by_run | eexists [_]; by_run ]).
Qed.

Lemma frames_before_first_sleep (t : topic) (ws : WebSocket) (v : json)
    (later : list event) :
  frames_to ws
    (before_first_sleep
       ([Call (WsAccept ws); Return (WsAccept ws)] ++ first_pass t ws v ++ later))
  = if skipped t v then [] else [v].
Proof.
  unfold first_pass. destruct (skipped t v); destruct t; cbn;
    by rewrite ?same_socket_refl.
Qed.

(** C10, as stated, fails: an alerts session is accepted with its engine
    set; the first fetch returns no alerts, and the handler goes to sleep
    for its ten seconds without having sent anything. *)
Lemma no_alerts_no_first_frame :
  ¬ first_frame_precedes_first_sleep Alert ws_b
      (serving [ok 0; gives 0 (JList []); ok 0]).
Proof. intros H. apply H. by_run. Qed.

(** C10, amended: once the connection is accepted the loop starts, in a
    state in which the session is registered, and its first pass fetches
    and, for projects and the portfolio, sends before it sleeps: with the
    engine set, the first frame reaches the session before the first
    [asyncio.sleep] is even called, so no interval passes before it.  The
    alerts handler does the same when the first fetch returns alerts; when
    it returns none (or anything false in a boolean context) the handler
    goes to its first sleep without a frame. *)
Theorem first_frame_before_first_sleep (t : topic) (ws : WebSocket) (w : world)
    (ra : response) (dt : N) (v : json) (rs : response) (rest : list response) :
  engine_set t w = true →
  pending w = ra :: gives dt v :: rs :: rest →
  returned ra = true → returned rs = true →
  (∃ w0, handler t ws w
         = try_except (forever (cycle t ws)) (on_disconnect (session_id t ws)) w0
         ∧ since w w0 = [Call (WsAccept ws); Return (WsAccept ws)]
         ∧ active_connections w0 !! session_id t ws = Some ws)
  ∧ (∃ later, since w (handler t ws w).2
              = [Call (WsAccept ws); Return (WsAccept ws)]
                ++ first_pass t ws v ++ later)
  ∧ frames_to ws (before_first_sleep (since w (handler t ws w).2))
    = if skipped t v then [] else [v].
Proof.
  intros Hset Hp (dta & va & ->)%returned_gives Hrs.
  assert (Hfirst_pass : ∃ later, since w (handler t ws w).2
            = [Call (WsAccept ws); Return (WsAccept ws)]
              ++ first_pass t ws v ++ later).
  { rewrite handler_unfold, (endpoint_accepted _ _ _ _ dta va _ Hp).
    set (id := session_id t ws).
    set (w0 := registered id ws dta (gives dt v :: rs :: rest) w).
    destruct (registered_facts id ws dta (gives dt v :: rs :: rest) w)
      as (Htrace & Hpending & Hreg & Hglobals).
    fold w0 in Htrace, Hpending, Hreg, Hglobals.
    destruct (first_cycle_trace t ws w0 dt v rs rest) as [more Hfirst];
      [by rewrite Hglobals | exact Hpending | exact Hrs |].
    change (try_except (forever (cycle t ws)) (on_disconnect id) w0)
      with (try_except
              (bind (cycle t ws)
                 (fun _ => while_True (length (pending w0)) (cycle t ws)))
              (on_disconnect id) w0).
    destruct (cycle t ws w0) as [r1 w1] eqn:Hcycle. cbn [snd] in Hfirst.
    pose proof (try_except_bind_first (grows anything) (cycle t ws)
                  (fun _ => while_True (length (pending w0)) (cycle t ws))
                  (on_disconnect id) w0 r1 w1 Hcycle) as Hrest.
    destruct Hrest as (later & Hlater & _).
    - apply preserved_try_except; [apply _ | |].
      + apply preserved_while_True; [apply _ | apply cycle_grows].
      + apply on_disconnect_grows.
    - apply on_disconnect_grows.
    - exists (more ++ later). apply since_app.
      rewrite Hlater, Hfirst, Htrace.
      rewrite !rev_app_distr. cbn [rev app]. rewrite <- !app_assoc.
      reflexivity. }
  split_and!.
  - rewrite handler_unfold, (endpoint_accepted _ _ _ _ dta va _ Hp).
    destruct (registered_facts (session_id t ws) ws dta
                (gives dt v :: rs :: rest) w) as (Htrace & _ & Hreg & _).
    eexists. split_and!; [reflexivity | by apply since_app | exact Hreg].
  - exact Hfirst_pass.
  - destruct Hfirst_pass as [later ->]. apply frames_before_first_sleep.
Qed.

Lemma first_frame_before_first_sleep_witness :
  let w := serving [ok 0; gives 1 open_projects; ok 0] in
  let quiet := serving [ok 0; gives 0 (JList []); ok 0] in
  (∃ later, since w (handler Portfolio ws_b w).2
            = [Call (WsAccept ws_b); Return (WsAccept ws_b)]
              ++ fetch_send_sleep Portfolio ws_b open_projects ++ later)
  ∧ frames_to ws_b (before_first_sleep (since w (handler Portfolio ws_b w).2))
    = [open_projects]
  ∧ frames_to ws_a (before_first_sleep (since quiet (handler Alert ws_a quiet).2))
    = [].
Proof.
  intros w quiet.
  destruct (first_frame_before_first_sleep Portfolio ws_b w (ok 0) 1
              open_projects (ok 0) []) as (_ & Hfirst & Hframe);
    [by_run | by_run | by_run | by_run |].
  destruct (first_frame_before_first_sleep Alert ws_a quiet (ok 0) 0
              (JList []) (ok 0) []) as (_ & _ & Hnone);
    [by_run | by_run | by_run | by_run |].
  split_and!; [exact Hfirst | exact Hframe | exact Hnone].
Defined.

(** ** Registration under an identifier that is taken *)





(** * Sessions over many cycles, several sessions, more on [lifespan] *)

(** ** Connection identifiers *)

Lemma session_id_inj (t t' : topic) (ws ws' : WebSocket) :
  session_id t ws = session_id t' ws' → t = t' ∧ py_id ws = py_id ws'.
Proof.
  unfold session_id, connection_id_of.
  remember (pretty (py_id ws)) as a eqn:Ha.
  remember (pretty (py_id ws')) as b eqn:Hb.
  intros H.
  destruct t, t'; simpl in H; try discriminate H;
    (injection H as H; change (a = b) in H; subst a b;
     apply (inj pretty) in H; by split).
Qed.

(** X1: the identifiers [f"projects_{id(websocket)}"], [f"portfolio_..."]
    and [f"alerts_..."] determine the endpoint and the [id()] of the
    websocket, and nothing else: two sessions have the same identifier
    exactly when they are on the same endpoint and their objects have the
    same [id()].  So the registration of a session never replaces the entry
    of a session on another endpoint or with another [id()]; a later
    connection whose object has the [id()] of an earlier one gets the
    identifier of that earlier one. *)
Theorem registration_spares_other_sessions (t t' : topic) (ws ws' : WebSocket)
    (w : world) :
  (session_id t ws = session_id t' ws' ↔ t = t' ∧ py_id ws = py_id ws')
  ∧ ((t, py_id ws) ≠ (t', py_id ws') →
     active_connections
       (setitem_active_connections (session_id t' ws') ws' w).2
       !! session_id t ws
     = active_connections w !! session_id t ws).
Proof.
  split.
  - split; [apply session_id_inj|].
    intros [-> Hid]. unfold session_id, connection_id_of. by rewrite Hid.
  - intros Hne. destruct w as [pa po ra dc conns t0 tr script].
    unfold setitem_active_connections, modify, dict_setitem. cbn.
    apply lookup_insert_ne. intros [-> Hid]%session_id_inj.
    apply Hne. by rewrite Hid.
Qed.

Lemma registration_spares_other_sessions_witness :
  let w := (setitem_active_connections (session_id Project ws_a) ws_a
              (boot [])).2 in
  active_connections
    (setitem_active_connections (session_id Portfolio ws_a) ws_a w).2
    !! session_id Project ws_a
  = active_connections w !! session_id Project ws_a
  ∧ session_id Project ws_c = session_id Project ws_a.
Proof.
  intros w.
  destruct (registration_spares_other_sessions Project Portfolio ws_a ws_a w)
    as [_ Hspared].
  destruct (registration_spares_other_sessions Project Project ws_c ws_a w)
    as [[_ Hsame] _].
  split; [apply Hspared; discriminate | by apply Hsame].
Defined.

(** ** Registering and removing *)

(** X2: removing a session right after it was registered hands back that
    very session.  When the identifier was free before, the whole state is
    again what it was; when it was taken, the earlier entry is gone too. *)
Theorem setitem_then_pop (key : string) (ws : WebSocket) (w : world) :
  let w1 := (setitem_active_connections key ws w).2 in
  (pop_active_connections key w1).1 = Ok (Some ws)
  ∧ active_connections (pop_active_connections key w1).2
    = delete key (active_connections w)
  ∧ (active_connections w !! key = None →
     pop_active_connections key w1 = (Ok (Some ws), w)).
Proof.
  intros w1. subst w1. destruct w as [pa po ra dc conns t0 tr script].
  unfold setitem_active_connections, pop_active_connections, modify,
    dict_setitem, dict_pop, with_active_connections. cbn.
  rewrite lookup_insert_eq, delete_insert_eq. split_and!; [done | done |].
  intros Hfree. by rewrite delete_id.
Qed.

Lemma setitem_then_pop_witness :
  pop_active_connections "alerts_140777"
    (setitem_active_connections "alerts_140777" ws_b (boot [ok 0])).2
  = (Ok (Some ws_b), boot [ok 0]).
Proof.
  destruct (setitem_then_pop "alerts_140777" ws_b (boot [ok 0]))
    as (_ & _ & Hback).
  apply Hback. reflexivity.
Defined.

(** ** What a handler leaves alone *)

#[global] Instance isolated_preorder (id : string) : PreOrder (isolated id).
Proof.
  split.
  - intros w. by repeat split.
  - intros w1 w2 w3 [(G1 & G2 & G3 & G4) E12] [(K1 & K2 & K3 & K4) E23].
    repeat split; try congruence.
    intros key Hne. rewrite (E23 key Hne). by apply E12.
Qed.

Ltac show_isolated := unfold isolated, same_globals; run_goal; by repeat split.

Lemma external_isolated (id : string) (c : callee) :
  preserved (isolated id) (external c).
Proof.
  intros [pa po ra dc conns t0 tr script]. split_script script; show_isolated.
Qed.

Lemma cycle_isolated (id : string) (t : topic) (ws : WebSocket) :
  preserved (isolated id) (cycle t ws).
Proof.
  intros [pa po ra dc conns t0 tr script].
  destruct t;
    [destruct pa as [a|] | destruct po as [a|] | destruct ra as [a|]];
    split_run script; unfold isolated, same_globals; run_goal;
    try destruct (truthy _); by repeat split.
Qed.

Lemma setitem_isolated (id : string) (ws : WebSocket) :
  preserved (isolated id) (setitem_active_connections id ws).
Proof.
  intros [pa po ra dc conns t0 tr script]. unfold isolated, same_globals.
  run_goal. repeat split. intros key Hne. by apply lookup_insert_ne.
Qed.

Lemma on_disconnect_isolated (id : string) (e : exn) :
  preserved (isolated id) (on_disconnect id e).
Proof.
  intros [pa po ra dc conns t0 tr script]. unfold isolated, same_globals.
  destruct e; cbn; repeat split.
  intros key Hne. by apply lookup_delete_ne.
Qed.

Lemma handler_isolated (t : topic) (ws : WebSocket) :
  preserved (isolated (session_id t ws)) (handler t ws).
Proof.
  rewrite handler_unfold. unfold endpoint.
  apply preserved_bind; [apply _ | apply external_isolated |].
  intros _. apply preserved_bind; [apply _ | apply setitem_isolated |].
  intros _. apply preserved_try_except; [apply _ | |].
  - apply preserved_forever; [apply _ | apply cycle_isolated].
  - apply on_disconnect_isolated.
Qed.

(** X3: whatever the environment does and however the handler ends, a
    session handler changes none of the four engine globals and no registry
    entry other than the one under its own connection identifier. *)
Theorem handler_touches_own_entry_only (t : topic) (ws : WebSocket) (w : world) :
  let w' := (handler t ws w).2 in
  (project_analyzer w', portfolio_optimizer w', risk_analyzer w', data_collector w')
  = (project_analyzer w, portfolio_optimizer w, risk_analyzer w, data_collector w)
  ∧ ∀ key, key ≠ session_id t ws →
      active_connections w' !! key = active_connections w !! key.
Proof.
  intros w'. subst w'.
  destruct (handler_isolated t ws w) as [(G1 & G2 & G3 & G4) Hother].
  split; [by rewrite G1, G2, G3, G4 | exact Hother].
Qed.

Lemma handler_touches_own_entry_only_witness :
  let w := feed [ok 0; gives 0 open_projects; fails 0 (WebSocketDisconnect 1006)]
             two_open_sessions in
  active_connections (handler Portfolio ws_a w).2 !! "alerts_140777"
  = active_connections w !! "alerts_140777".
Proof.
  intros w.
  destruct (handler_touches_own_entry_only Portfolio ws_a w) as [_ Hother].
  apply Hother. intros Hsame. vm_compute in Hsame. discriminate Hsame.
Defined.

(** ** Whom a handler talks to *)

Ltac grows_by new tac := exists new; split; [reflexivity | tac].

Ltac show_grows_with tac :=
  first [ grows_by (@nil event) tac
        | eexists [_]; split; [reflexivity | tac]
        | eexists [_; _]; split; [reflexivity | tac]
        | eexists [_; _; _]; split; [reflexivity | tac]
        | eexists [_; _; _; _]; split; [reflexivity | tac]
        | eexists [_; _; _; _; _]; split; [reflexivity | tac]
        | eexists [_; _; _; _; _; _]; split; [reflexivity | tac] ].

Lemma cycle_own_events (t : topic) (ws : WebSocket) :
  preserved (grows (own_event t ws)) (cycle t ws).
Proof.
  intros [pa po ra dc conns t0 tr script].
  destruct t;
    [destruct pa as [a|] | destruct po as [a|] | destruct ra as [a|]];
    split_run script; run_goal; try destruct (truthy _);
    show_grows_with ltac:(cbn; by rewrite ?same_socket_refl).
Qed.

Lemma on_disconnect_own_events (t : topic) (ws : WebSocket) (e : exn) :
  preserved (grows (own_event t ws)) (on_disconnect (session_id t ws) e).
Proof.
  intros [pa po ra dc conns t0 tr script]. destruct e; cbn.
  - exists [LogInfo (Disconnected (session_id t ws))]. cbn.
    by rewrite String.eqb_refl.
  - by exists [].
  - by exists [].
Qed.

Lemma handler_own_events (t : topic) (ws : WebSocket) :
  preserved (grows (own_event t ws)) (handler t ws).
Proof.
  rewrite handler_unfold. unfold endpoint.
  apply preserved_bind; [apply _ | |].
  { apply external_grows; cbn; apply same_socket_refl. }
  intros _. apply preserved_bind; [apply _ | |].
  { intros [pa po ra dc conns t0 tr script]. by exists []. }
  intros _. apply preserved_try_except; [apply _ | |].
  - apply preserved_forever; [apply _ | apply cycle_own_events].
  - apply on_disconnect_own_events.
Qed.

Lemma own_events_no_frames_elsewhere (t : topic) (ws other : WebSocket)
    (new : list event) :
  other ≠ ws → forallb (own_event t ws) new = true →
  frames_to other new = [].
Proof.
  intros Hne. induction new as [|e new IH]; cbn; [done|].
  intros [He Hnew]%andb_prop. specialize (IH Hnew).
  destruct e as [c|c|m|m]; try exact IH. destruct c; try exact IH.
  cbn in He. apply same_socket_eq in He. subst ws0.
  destruct (same_socket ws other) eqn:Hsame; [|exact IH].
  apply same_socket_eq in Hsame. by destruct Hne.
Qed.

(** X4: a session handler accepts and sends on its own connection only,
    polls only the engine of its own topic and sleeps only its own interval:
    every event of its run is one of these (or the log line of its own
    disconnection).  So no frame of it ever reaches another connection. *)
Theorem handler_talks_to_own_socket_only (t : topic) (ws other : WebSocket)
    (w : world) :
  forallb (own_event t ws) (since w (handler t ws w).2) = true
  ∧ (other ≠ ws →
     frames_to other (since w (handler t ws w).2) = []).
Proof.
  pose proof (grows_since _ _ _ (handler_own_events t ws w)) as Hown.
  split; [exact Hown|].
  intros Hne. by apply (own_events_no_frames_elsewhere t ws).
Qed.

Lemma handler_talks_to_own_socket_only_witness :
  let w := serving [ok 0; gives 0 open_projects; ok 0; ok 0;
                    gives 0 open_projects; ok 0] in
  frames_to ws_b (since w (handler Project ws_a w).2) = [].
Proof.
  intros w.
  destruct (handler_talks_to_own_socket_only Project ws_a ws_b w) as [_ Hnone].
  apply Hnone. discriminate.
Defined.

(** ** How a handler ends *)

(** X5: when [websocket.accept()] raises, the handler ends with that
    exception before anything else happened: the registry is untouched,
    no engine is polled, nothing is logged, and the responses that follow
    stay unread.  The call stands before the [try], so this holds for a
    [WebSocketDisconnect] too. *)
Theorem accept_failure_registers_nothing (t : topic) (ws : WebSocket) (w : world)
    (dt : N) (e : exn) (rest : list response) :
  pending w = fails dt e :: rest →
  let out := handler t ws w in
  out.1 = Raise e
  ∧ active_connections out.2 = active_connections w
  ∧ since w out.2 = [Call (WsAccept ws)]
  ∧ pending out.2 = rest.
Proof.
  intros Hp out. subst out. rewrite handler_unfold.
  generalize (session_id t ws) as id. intros id.
  destruct w as [pa po ra dc conns t0 tr script]. cbn in Hp. subst script.
  split_and!; [by_run | by_run | since_by_trace | by_run].
Qed.

Lemma accept_failure_registers_nothing_witness :
  let w := serving [fails 0 (WebSocketDisconnect 1006); ok 0] in
  (handler Alert ws_b w).1 = Raise (WebSocketDisconnect 1006)
  ∧ active_connections (handler Alert ws_b w).2 = active_connections w.
Proof.
  intros w.
  destruct (accept_failure_registers_nothing Alert ws_b w 0
              (WebSocketDisconnect 1006) [ok 0]) as (Hraise & Hreg & _);
    [by_run | split; [exact Hraise | exact Hreg]].
Defined.

(** Where the loop of an accepted connection leaves the session's entry. *)
Lemma entry_after_accept (t : topic) (ws : WebSocket) (w : world)
    (ra : response) (rest : list response) :
  pending w = ra :: rest → returned ra = true →
  let out := handler t ws w in
  match out.1 with
  | Ok _ =>
      active_connections out.2 !! session_id t ws = None
      ∧ ∃ older, trace out.2
                 = LogInfo (Disconnected (session_id t ws)) :: older
  | _ => active_connections out.2 !! session_id t ws = Some ws
  end.
Proof.
  intros Hp (dt & v & ->)%returned_gives out. subst out.
  rewrite handler_unfold, (endpoint_accepted _ _ _ _ dt v rest Hp).
  unfold try_except.
  pose proof (preserved_forever same_registry _ (cycle_same_registry t ws)
                (registered (session_id t ws) ws dt rest w)) as Hreg.
  pose proof (while_True_never_returns
                (S (length (pending (registered (session_id t ws) ws dt rest w))))
                (cycle t ws) (registered (session_id t ws) ws dt rest w)) as Hnever.
  fold (forever (cycle t ws) (registered (session_id t ws) ws dt rest w)) in Hnever.
  destruct (forever _ _) as [[[]|e|] w3]; cbn in Hreg, Hnever.
  - done.
  - destruct e; cbn.
    + destruct w3; cbn. split; [apply lookup_delete_eq | by eexists].
    + rewrite Hreg. apply lookup_insert_eq.
    + rewrite Hreg. apply lookup_insert_eq.
  - cbn. rewrite Hreg. apply lookup_insert_eq.
Qed.

(** X6: a session whose handler is still running (suspended in one of its
    awaits after the connection was accepted) is in the registry, under its
    connection identifier. *)
Theorem running_session_is_registered (t : topic) (ws : WebSocket) (w w' : world)
    (ra : response) (rest : list response) :
  pending w = ra :: rest → returned ra = true →
  handler t ws w = (Pending, w') →
  active_connections w' !! session_id t ws = Some ws.
Proof.
  intros Hp Hra Hrun.
  pose proof (entry_after_accept t ws w ra rest Hp Hra) as Hentry.
  cbn zeta in Hentry. by rewrite Hrun in Hentry.
Qed.

Lemma running_session_is_registered_witness :
  let w := serving [ok 0; gives 0 (JList []); ok 0] in
  active_connections (handler Alert ws_b w).2 !! session_id Alert ws_b
  = Some ws_b.
Proof.
  intros w.
  apply (running_session_is_registered Alert ws_b w (handler Alert ws_b w).2
           (ok 0) [gives 0 (JList []); ok 0]); by_run.
Defined.

(** X7: a handler returns only by way of its [except WebSocketDisconnect]
    clause: when it has returned, the session's entry is gone from the
    registry and the last thing that happened is the log line of the
    disconnection. *)
Theorem handler_returns_only_on_disconnect (t : topic) (ws : WebSocket)
    (w w' : world) :
  handler t ws w = (Ok tt, w') →
  active_connections w' !! session_id t ws = None
  ∧ ∃ older, trace w' = LogInfo (Disconnected (session_id t ws)) :: older.
Proof.
  intros Hrun.
  destruct (pending w) as [|[dt [v|e]] rest] eqn:Hp.
  - rewrite handler_unfold in Hrun.
    destruct w as [pa po ra dc conns t0 tr script]. cbn in Hp. subst.
    discriminate Hrun.
  - pose proof (entry_after_accept t ws w (gives dt v) rest Hp eq_refl) as Hentry.
    cbn zeta in Hentry. by rewrite Hrun in Hentry.
  - rewrite handler_unfold in Hrun.
    destruct w as [pa po ra dc conns t0 tr script]. cbn in Hp. subst.
    discriminate Hrun.
Qed.

Lemma handler_returns_only_on_disconnect_witness :
  let w := serving [ok 0; gives 0 open_projects;
                    fails 0 (WebSocketDisconnect 1001)] in
  active_connections (handler Project ws_a w).2 !! session_id Project ws_a = None.
Proof.
  intros w.
  destruct (handler_returns_only_on_disconnect Project ws_a w
              (handler Project ws_a w).2) as [Hgone _]; [by_run | exact Hgone].
Defined.

(** ** A session over many cycles *)

Lemma calls_in_app (l1 l2 : list event) :
  calls_in (l1 ++ l2) = calls_in l1 ++ calls_in l2.
Proof.
  induction l1 as [|e l1 IH]; [done|].
  destruct e; cbn; by rewrite ?IH.
Qed.

Lemma frames_to_app (ws : WebSocket) (l1 l2 : list event) :
  frames_to ws (l1 ++ l2) = frames_to ws l1 ++ frames_to ws l2.
Proof.
  induction l1 as [|e l1 IH]; [done|].
  destruct e as [c|c|m|m]; cbn; try exact IH. destruct c; cbn; try exact IH.
  destruct (same_socket _ _); cbn; by rewrite IH.
Qed.

Ltac round_done :=
  split_and!;
  [ reflexivity | reflexivity | reflexivity
  | cbn; rewrite ?same_socket_refl; reflexivity | cbn; lia | by intros [] ].

Lemma cycle_round (t : topic) (ws : WebSocket) (w : world) (r : round)
    (tail : list response) :
  engine_set t w = true → pending w = round_script t r ++ tail →
  ∃ w1 new,
    cycle t ws w = (Ok tt, w1)
    ∧ pending w1 = tail
    ∧ trace w1 = rev new ++ trace w
    ∧ frames_to ws new = (if skipped t (snapshot r) then [] else [snapshot r])
    ∧ now w1 = (now w + round_time t r)%N
    ∧ ∀ t', engine_set t' w1 = engine_set t' w.
Proof.
  intros Hset Hp. destruct w as [pa po ra dc conns t0 tr script].
  destruct r as [ft v st]. unfold round_script, round_time in *.
  cbn [pending snapshot fetch_took send_took] in *.
  case_engine t pa po ra Hset; cbn [skipped] in *.
  - cbn in Hp. subst script. run_goal. eexists _, [_; _; _; _; _; _]. round_done.
  - cbn in Hp. subst script. run_goal. eexists _, [_; _; _; _; _; _]. round_done.
  - destruct (truthy v) eqn:Hv; unfold gives, ok in Hp; cbn in Hp;
      subst script; run_goal; rewrite Hv.
    + eexists _, [_; _; _; _; _; _]. round_done.
    + eexists _, [_; _; _; _]. round_done.
Qed.

Lemma loop_rounds (t : topic) (ws : WebSocket) (rs : list round) :
  ∀ (w : world) (tail : list response) (fuel : nat),
    engine_set t w = true → pending w = rounds_script t rs ++ tail →
    length (pending w) < fuel →
    ∃ w1 new fuel1,
      while_True fuel (cycle t ws) w = while_True fuel1 (cycle t ws) w1
      ∧ length (pending w1) < fuel1
      ∧ pending w1 = tail
      ∧ trace w1 = rev new ++ trace w
      ∧ frames_to ws new = delivered t rs
      ∧ now w1 = (now w + rounds_time t rs)%N
      ∧ active_connections w1 = active_connections w
      ∧ engine_set t w1 = true.
Proof.
  induction rs as [|r rs IH]; intros w tail fuel Hset Hp Hfuel.
  - exists w, [], fuel. cbn. split_and!; try done. lia.
  - cbn [rounds_script flat_map] in Hp. rewrite <- app_assoc in Hp.
    destruct (cycle_round t ws w r _ Hset Hp)
      as (w1 & new1 & Hcycle & Hp1 & Htr1 & Hfr1 & Hnow1 & Hset1).
    pose proof (cycle_same_registry t ws w) as Hreg1.
    rewrite Hcycle in Hreg1. cbn in Hreg1.
    destruct fuel as [|fuel]; [lia|].
    assert (Hlen : length (pending w1) < fuel).
    { rewrite Hp, length_app in Hfuel. rewrite Hp1.
      assert (0 < length (round_script t r))
        by (unfold round_script; destruct (skipped _ _); cbn; lia).
      lia. }
    destruct (IH w1 tail fuel) as
      (w2 & new2 & fuel2 & Hloop & Hlen2 & Hp2 & Htr2 & Hfr2 & Hnow2 & Hreg2 & Hset2);
      [by rewrite Hset1 | exact Hp1 | exact Hlen |].
    exists w2, (new1 ++ new2), fuel2. split_and!.
    + cbn [while_True]. unfold bind at 1. by rewrite Hcycle.
    + exact Hlen2.
    + exact Hp2.
    + rewrite Htr2, Htr1, rev_app_distr. by rewrite app_assoc.
    + rewrite frames_to_app, Hfr1, Hfr2. unfold delivered. cbn.
      by destruct (skipped t (snapshot r)).
    + rewrite Hnow2, Hnow1.
      change (rounds_time t (r :: rs))
        with (round_time t r + rounds_time t rs)%N. lia.
    + by rewrite Hreg2, Hreg1.
    + exact Hset2.
Qed.

Lemma registered_now id ws dt rest (w : world) :
  now (registered id ws dt rest w) = (now w + dt)%N.
Proof. by destruct w. Qed.

(** An accepted handler whose script continues with whole rounds is, after
    them, at the head of its loop again. *)
Lemma handler_after_rounds (t : topic) (ws : WebSocket) (w : world)
    (ra : response) (rs : list round) (tail : list response) :
  engine_set t w = true →
  pending w = ra :: rounds_script t rs ++ tail → returned ra = true →
  ∃ w1 new fuel1,
    handler t ws w
    = try_except (while_True fuel1 (cycle t ws))
        (on_disconnect (session_id t ws)) w1
    ∧ 0 < fuel1
    ∧ pending w1 = tail
    ∧ trace w1 = rev ([Call (WsAccept ws); Return (WsAccept ws)] ++ new) ++ trace w
    ∧ frames_to ws new = delivered t rs
    ∧ now w1 = (now w + took ra + rounds_time t rs)%N
    ∧ active_connections w1 !! session_id t ws = Some ws
    ∧ engine_set t w1 = true.
Proof.
  intros Hset Hp (dta & va & ->)%returned_gives.
  rewrite handler_unfold, (endpoint_accepted _ _ _ _ dta va _ Hp).
  set (id := session_id t ws).
  set (w0 := registered id ws dta (rounds_script t rs ++ tail) w).
  destruct (registered_facts id ws dta (rounds_script t rs ++ tail) w)
    as (Htrace & Hpending & Hreg & Hglobals).
  pose proof (registered_now id ws dta (rounds_script t rs ++ tail) w) as Hnow.
  fold w0 in Htrace, Hpending, Hreg, Hglobals, Hnow.
  destruct (loop_rounds t ws rs w0 tail (S (length (pending w0))))
    as (w1 & new & fuel1 & Hloop & Hlen & Hp1 & Htr1 & Hfr & Hnow1 & Hreg1 & Hset1);
    [by rewrite Hglobals | exact Hpending | lia |].
  exists w1, new, fuel1. split_and!.
  - unfold try_except, forever. by rewrite Hloop.
  - lia.
  - exact Hp1.
  - rewrite Htr1, Htrace, rev_app_distr. cbn. by rewrite <- app_assoc.
  - exact Hfr.
  - rewrite Hnow1, Hnow. reflexivity.
  - by rewrite Hreg1.
  - exact Hset1.
Qed.

Lemma starved_end (t : topic) (ws : WebSocket) (id : string) (w : world)
    (fuel : nat) :
  engine_set t w = true → pending w = [] → 0 < fuel →
  try_except (while_True fuel (cycle t ws)) (on_disconnect id) w
  = (Pending, emit (Call (fetch_of t)) w).
Proof.
  intros Hset Hp Hfuel. destruct fuel as [|fuel]; [lia|].
  destruct w as [pa po ra dc conns t0 tr script]. cbn in Hp. subst script.
  by case_engine t pa po ra Hset.
Qed.

Lemma send_disconnect_end (t : topic) (ws : WebSocket) (id : string)
    (w : world) (fuel : nat) (dtf dts code : N) (v : json) :
  engine_set t w = true →
  pending w = [gives dtf v; fails dts (WebSocketDisconnect code)] →
  skipped t v = false → 0 < fuel →
  ∃ w',
    try_except (while_True fuel (cycle t ws)) (on_disconnect id) w = (Ok tt, w')
    ∧ trace w'
      = [LogInfo (Disconnected id); Call (WsSendJson ws v);
         Return (fetch_of t); Call (fetch_of t)] ++ trace w
    ∧ active_connections w' = delete id (active_connections w)
    ∧ pending w' = [].
Proof.
  intros Hset Hp Hv Hfuel. destruct fuel as [|fuel]; [lia|].
  destruct w as [pa po ra dc conns t0 tr script]. cbn in Hp. subst script.
  case_engine t pa po ra Hset.
  - by eexists.
  - by eexists.
  - apply negb_false_iff in Hv.
    unfold try_except. cbn [while_True]. unfold bind at 1.
    cbv [cycle alerts_cycle external bind ret get emit answered duration
         pending trace risk_analyzer answer gives fails].
    rewrite Hv. by eexists.
Qed.

(** X8: with its engine set and every call returning, a handler delivers the
    snapshots it fetches to its session, each once and in the order they
    were fetched (the alerts handler leaves out the ones that are false in
    a boolean context); it then waits for the next fetch, still running,
    and the clock has advanced by the time of the accept and, per cycle, of
    the fetch, the send and the interval. *)
Theorem handler_streams_snapshots (t : topic) (ws : WebSocket) (w : world)
    (ra : response) (rs : list round) :
  engine_set t w = true →
  pending w = ra :: rounds_script t rs → returned ra = true →
  let out := handler t ws w in
  out.1 = Pending
  ∧ frames_to ws (since w out.2) = delivered t rs
  ∧ now out.2 = (now w + took ra + rounds_time t rs)%N
  ∧ pending out.2 = [].
Proof.
  intros Hset Hp Hra out. subst out.
  destruct (handler_after_rounds t ws w ra rs [] Hset) as
    (w1 & new & fuel1 & -> & Hfuel & Hp1 & Htr1 & Hfr & Hnow1 & _ & Hset1);
    [by rewrite app_nil_r | exact Hra |].
  rewrite (starved_end t ws _ w1 fuel1 Hset1 Hp1 Hfuel).
  split_and!.
  - reflexivity.
  - rewrite (since_app w _
               (([Call (WsAccept ws); Return (WsAccept ws)] ++ new)
                ++ [Call (fetch_of t)])).
    + rewrite !frames_to_app, Hfr. cbn. destruct t; cbn; by rewrite app_nil_r.
    + cbn [snd emit trace]. rewrite Htr1, (rev_app_distr _ [_]). reflexivity.
  - destruct w1; exact Hnow1.
  - destruct w1; exact Hp1.
Qed.

Lemma handler_streams_snapshots_witness :
  let rs := [ {| fetch_took := 1; snapshot := JList [JStr "late"]; send_took := 0 |};
              {| fetch_took := 0; snapshot := JList []; send_took := 0 |};
              {| fetch_took := 2; snapshot := JList [JStr "over budget"]; send_took := 1 |} ] in
  let w := serving (ok 0 :: rounds_script Alert rs) in
  frames_to ws_b (since w (handler Alert ws_b w).2)
  = [JList [JStr "late"]; JList [JStr "over budget"]]
  ∧ now (handler Alert ws_b w).2 = 34%N.
Proof.
  intros rs w.
  destruct (handler_streams_snapshots Alert ws_b w (ok 0) rs)
    as (_ & Hframes & Hnow & _); [by_run | by_run | by_run |].
  split; [exact Hframes | rewrite Hnow; by_run].
Defined.

(** X9: when, after any number of such cycles, a send raises
    [WebSocketDisconnect], the handler returns normally: the frame of that
    send is not delivered, the frames before it all were, and the session's
    entry is gone from the registry. *)
Theorem disconnect_ends_session (t : topic) (ws : WebSocket) (w : world)
    (ra : response) (rs : list round) (dtf dts code : N) (v : json) :
  engine_set t w = true →
  pending w = ra :: rounds_script t rs
              ++ [gives dtf v; fails dts (WebSocketDisconnect code)] →
  returned ra = true → skipped t v = false →
  let out := handler t ws w in
  out.1 = Ok tt
  ∧ frames_to ws (since w out.2) = delivered t rs
  ∧ active_connections out.2 !! session_id t ws = None
  ∧ pending out.2 = [].
Proof.
  intros Hset Hp Hra Hv out. subst out.
  destruct (handler_after_rounds t ws w ra rs _ Hset Hp Hra) as
    (w1 & new & fuel1 & -> & Hfuel & Hp1 & Htr1 & Hfr & _ & _ & Hset1).
  destruct (send_disconnect_end t ws (session_id t ws) w1 fuel1 dtf dts code v
              Hset1 Hp1 Hv Hfuel) as (w' & -> & Htr' & Hreg' & Hp').
  split_and!.
  - reflexivity.
  - rewrite (since_app w _
               (([Call (WsAccept ws); Return (WsAccept ws)] ++ new)
                ++ [Call (fetch_of t); Return (fetch_of t);
                    Call (WsSendJson ws v);
                    LogInfo (Disconnected (session_id t ws))])).
    + rewrite !frames_to_app, Hfr. cbn. destruct t; cbn; by rewrite app_nil_r.
    + cbn [snd]. rewrite Htr', Htr1, (rev_app_distr _ [_; _; _; _]).
      reflexivity.
  - cbn [snd]. rewrite Hreg'. apply lookup_delete_eq.
  - exact Hp'.
Qed.

Lemma disconnect_ends_session_witness :
  let rs := [ {| fetch_took := 0; snapshot := open_projects; send_took := 0 |} ] in
  let w := serving (ok 0 :: rounds_script Portfolio rs
                    ++ [gives 0 JNull; fails 0 (WebSocketDisconnect 1006)]) in
  (handler Portfolio ws_a w).1 = Ok tt
  ∧ frames_to ws_a (since w (handler Portfolio ws_a w).2) = [open_projects].
Proof.
  intros rs w.
  destruct (disconnect_ends_session Portfolio ws_a w (ok 0) rs 0 0 1006 JNull)
    as (Hret & Hframes & _); [by_run | by_run | by_run | by_run |].
  split; [exact Hret | exact Hframes].
Defined.

(** ** A fetch that fails *)





(** ** Several sessions *)

(** X10: a session that is running stays registered while another session
    (on another endpoint, or of an object with another [id()], as every
    other object alive at the time has) is served, however that other
    handler ends. *)
Theorem second_session_keeps_first (t1 t2 : topic) (ws1 ws2 : WebSocket)
    (w w1 : world) (ra : response) (rest script2 : list response) :
  pending w = ra :: rest → returned ra = true →
  handler t1 ws1 w = (Pending, w1) →
  (t1, py_id ws1) ≠ (t2, py_id ws2) →
  active_connections (handler t2 ws2 (feed script2 w1)).2 !! session_id t1 ws1
  = Some ws1.
Proof.
  intros Hp Hra Hrun Hne.
  pose proof (entry_after_accept t1 ws1 w ra rest Hp Hra) as Hentry.
  cbn zeta in Hentry. rewrite Hrun in Hentry. cbn in Hentry.
  destruct (handler_isolated t2 ws2 (feed script2 w1)) as [_ Hother].
  rewrite Hother.
  - by destruct w1.
  - intros [-> Hid]%session_id_inj. apply Hne. by rewrite Hid.
Qed.

Lemma second_session_keeps_first_witness :
  let w := serving [ok 0; gives 0 open_projects; ok 0] in
  let w1 := (handler Project ws_a w).2 in
  active_connections
    (handler Project ws_b
       (feed [ok 0; gives 0 open_projects; fails 0 (WebSocketDisconnect 1006)]
          w1)).2
    !! session_id Project ws_a
  = Some ws_a.
Proof.
  intros w w1.
  apply (second_session_keeps_first Project Project ws_a ws_b w w1 (ok 0)
           [gives 0 open_projects; ok 0]);
    [by_run | by_run | by_run | discriminate].
Defined.

(** ** More on start-up and shut-down *)

Ltac settle_order :=
  split_and!;
  [ by_run
  | intros H; first [by_run | vm_compute in H; discriminate H]
  | intros H; first [by_run | vm_compute in H; exfalso; intuition discriminate] ].

(** X11: start-up assigns the globals in the order data collector, project
    analyzer, portfolio optimizer, risk analyzer and never unsets one:
    wherever it stands or has failed, a global that is set has all the
    earlier ones set; all four are set when it succeeds, and already when the
    collector's [start] is called. *)
Theorem startup_sets_globals_in_order (script : list response) :
  let out := lifespan_startup (boot script) in
  let ready (s : world) :=
    is_set (data_collector s) && is_set (project_analyzer s)
    && is_set (portfolio_optimizer s) && is_set (risk_analyzer s) in
  implb (is_set (risk_analyzer out.2)) (is_set (portfolio_optimizer out.2))
  && implb (is_set (portfolio_optimizer out.2)) (is_set (project_analyzer out.2))
  && implb (is_set (project_analyzer out.2)) (is_set (data_collector out.2))
  = true
  ∧ (out.1 = Ok tt → ready out.2 = true)
  ∧ (In (Call DataCollectorStart) (trace out.2) → ready out.2 = true).
Proof.
  intros out ready. subst out ready.
  do 7 (split_script script;
        [ settle_order
        |
        | match goal with e : exn |- _ => destruct e end; settle_order ]).
  settle_order.
Qed.

Lemma startup_sets_globals_in_order_witness :
  let s := (lifespan_startup
              (boot [ok 0; ok 0; ok 0; ok 0; ok 0; ok 0;
                     fails 3 (Exception "no model file")])).2 in
  is_set (data_collector s) && is_set (project_analyzer s)
  && is_set (portfolio_optimizer s) && is_set (risk_analyzer s) = true.
Proof.
  intros s.
  destruct (startup_sets_globals_in_order
              [ok 0; ok 0; ok 0; ok 0; ok 0; ok 0;
               fails 3 (Exception "no model file")]) as (_ & _ & Hstarted).
  apply Hstarted. vm_compute. tauto.
Defined.

(** X12: when [load_models] raises after the data collector was started,
    [lifespan] ends with that exception at once: the application is never
    served and the collector's [stop] is never called, the started collector
    is left running. *)
Theorem failed_load_leaves_collector_running (serve : M unit) (w : world)
    (good : list response) (dt : N) (e : exn) (rest : list response) :
  pending w = good ++ fails dt e :: rest → length good = 6 →
  forallb returned good = true →
  let out := lifespan serve w in
  out.1 = Raise e
  ∧ since w out.2
    = LogInfo Starting :: completed (take 6 startup_calls)
      ++ Call LoadModels :: (if isinstance_Exception e
                             then [LogError (FailedToInitialize e)] else [])
  ∧ In (Return DataCollectorStart) (since w out.2)
  ∧ ¬ In DataCollectorStop (calls_in (since w out.2))
  ∧ pending out.2 = rest.
Proof.
  intros Hp Hlen HF out. subst out.
  do 6 (peel good HF; [discriminate Hlen|]).
  destruct good; [|discriminate Hlen].
  destruct w as [pa po ra dc conns t0 tr script]; cbn in Hp; subst.
  match goal with
  | |- _ ∧ since ?a ?b = ?l ∧ _ =>
      assert (Hsince : since a b = l) by (destruct e; since_by_trace)
  end.
  split_and!.
  - destruct e; by_run.
  - exact Hsince.
  - rewrite Hsince. cbn. tauto.
  - rewrite Hsince. destruct e; cbn; intuition discriminate.
  - destruct e; by_run.
Qed.

Lemma failed_load_leaves_collector_running_witness :
  let w := boot [ok 0; ok 0; ok 0; ok 0; ok 0; ok 2;
                 fails 3 (Exception "no model file"); ok 0] in
  (lifespan (handler Project ws_a) w).1 = Raise (Exception "no model file")
  ∧ pending (lifespan (handler Project ws_a) w).2 = [ok 0].
Proof.
  intros w.
  destruct (failed_load_leaves_collector_running (handler Project ws_a) w
              [ok 0; ok 0; ok 0; ok 0; ok 0; ok 2] 3
              (Exception "no model file") [ok 0])
    as (Hraise & _ & _ & _ & Hrest); [by_run | by_run | by_run |].
  split; [exact Hraise | exact Hrest].
Defined.

Lemma startup_succeeds (w : world) (good rest : list response) :
  pending w = good ++ rest → length good = 7 → forallb returned good = true →
  ∃ w1, lifespan_startup w = (Ok tt, w1)
        ∧ trace w1 = rev started ++ trace w
        ∧ pending w1 = rest
        ∧ is_set (data_collector w1) = true.
Proof.
  intros Hp Hlen HF.
  do 7 (peel good HF; [discriminate Hlen|]).
  destruct good; [|discriminate Hlen].
  destruct w as [pa po ra dc conns t0 tr script]; cbn in Hp; subst.
  match goal with
  | |- ∃ w1, lifespan_startup ?w0 = _ ∧ _ => exists (lifespan_startup w0).2
  end.
  split_and!; by_run.
Qed.

Lemma shutdown_stops (w : world) (r : response) (rest : list response) :
  is_set (data_collector w) = true → pending w = r :: rest →
  returned r = true →
  ∃ w', lifespan_shutdown w = (Ok tt, w')
        ∧ trace w' = rev stopped ++ trace w
        ∧ pending w' = rest.
Proof.
  intros Hset Hp (dt & v & ->)%returned_gives.
  destruct w as [pa po ra [dc|] conns t0 tr script]; [|discriminate Hset].
  cbn in Hp. subst script.
  match goal with
  | |- ∃ w', lifespan_shutdown ?w0 = _ ∧ _ => exists (lifespan_shutdown w0).2
  end.
  split_and!; by_run.
Qed.

(** X13: [lifespan] brackets the serving of the application.  After a
    start-up in which every call returned, the body runs; when the body
    returns, the data collector is stopped, once, after everything the body
    did; when the body raises, the exception leaves [lifespan] as it is and
    the collector is not stopped (the [yield] stands in no [try]). *)
Theorem lifespan_brackets_serving (serve : M unit) (w : world)
    (good rest : list response) :
  preserved (grows anything) serve →
  pending w = good ++ rest → length good = 7 → forallb returned good = true →
  let w1 := (lifespan_startup w).2 in
  let served := serve w1 in
  let out := lifespan serve w in
  (∀ r rest2,
     served.1 = Ok tt → is_set (data_collector served.2) = true →
     pending served.2 = r :: rest2 → returned r = true →
     out.1 = Ok tt
     ∧ calls_in (since w out.2)
       = startup_calls ++ calls_in (since w1 served.2) ++ [DataCollectorStop]
     ∧ pending out.2 = rest2)
  ∧ (∀ e, served.1 = Raise e →
       out = (Raise e, served.2)
       ∧ calls_in (since w out.2)
         = startup_calls ++ calls_in (since w1 served.2)).
Proof.
  intros Hserve Hp Hlen HF w1 served out.
  destruct (startup_succeeds w good rest Hp Hlen HF)
    as (w1' & Hstart & Htr1 & _ & _).
  assert (Hw1 : w1 = w1') by (subst w1; by rewrite Hstart).
  assert (Hout : out = bind serve (fun _ => lifespan_shutdown) w1').
  { subst out. unfold lifespan. unfold bind at 1. by rewrite Hstart. }
  destruct (Hserve w1) as (new & Htr2 & _). fold served in Htr2.
  rewrite <- Hw1 in Hout, Htr1. clear Hw1 Hstart w1'.
  assert (Hcalls : calls_in started = startup_calls) by reflexivity.
  split.
  - intros r rest2 Hok Hset Hp2 Hr.
    destruct (shutdown_stops served.2 r rest2 Hset Hp2 Hr)
      as (w3 & Hstop & Htr3 & Hp3).
    assert (Hout' : out = (Ok tt, w3)).
    { rewrite Hout. unfold bind. fold served.
      destruct served as [[[]| |] w2]; try discriminate Hok. exact Hstop. }
    rewrite Hout'. cbn [fst snd]. split_and!; [reflexivity | | exact Hp3].
    rewrite (since_app w w3 (started ++ new ++ stopped)).
    + rewrite !calls_in_app, Hcalls, (since_app w1 served.2 new Htr2).
      reflexivity.
    + rewrite Htr3, Htr2, Htr1, !rev_app_distr. by rewrite <- !app_assoc.
  - intros e He.
    assert (Hout' : out = (Raise e, served.2)).
    { rewrite Hout. unfold bind. fold served.
      destruct served as [[[]|e'|] w2]; try discriminate He.
      by injection He as ->. }
    split; [exact Hout'|]. rewrite Hout'. cbn [snd].
    rewrite (since_app w served.2 (started ++ new)).
    + by rewrite calls_in_app, Hcalls, (since_app w1 served.2 new Htr2).
    + rewrite Htr2, Htr1, rev_app_distr. by rewrite <- app_assoc.
Qed.

Lemma handler_grows (t : topic) (ws : WebSocket) :
  preserved (grows anything) (handler t ws).
Proof.
  rewrite handler_unfold. unfold endpoint.
  apply preserved_bind; [apply _ | by apply external_grows |].
  intros _. apply preserved_bind; [apply _ | |].
  { intros [pa po ra dc conns t0 tr script]. by exists []. }
  intros _. apply preserved_try_except; [apply _ | |].
  - apply preserved_forever; [apply _ | apply cycle_grows].
  - apply on_disconnect_grows.
Qed.

Lemma lifespan_brackets_serving_witness :
  let w := boot [ok 0; ok 0; ok 0; ok 0; ok 0; ok 0; ok 0;
                 ok 0; gives 0 open_projects;
                 fails 0 (WebSocketDisconnect 1000); ok 0] in
  let w1 := (lifespan_startup w).2 in
  (lifespan (handler Project ws_a) w).1 = Ok tt
  ∧ calls_in (since w (lifespan (handler Project ws_a) w).2)
    = startup_calls
      ++ calls_in (since w1 (handler Project ws_a w1).2)
      ++ [DataCollectorStop].
Proof.
  intros w w1.
  destruct (lifespan_brackets_serving (handler Project ws_a) w
              [ok 0; ok 0; ok 0; ok 0; ok 0; ok 0; ok 0]
              [ok 0; gives 0 open_projects;
               fails 0 (WebSocketDisconnect 1000); ok 0])
    as [Hreturns _]; [apply handler_grows | by_run | by_run | by_run |].
  destruct (Hreturns (ok 0) []) as (Hok & Hcalls & _);
    [by_run | by_run | by_run | by_run |].
  split; [exact Hok | exact Hcalls].
Defined.

(** X14: when [data_collector.stop()] raises, the exception leaves
    [lifespan]'s shut-down part as it is: nothing is caught there, and the
    closing log line "shutdown complete" is never written. *)
Theorem failing_stop_is_not_caught (w : world) (dt : N) (e : exn)
    (rest : list response) :
  is_set (data_collector w) = true → pending w = fails dt e :: rest →
  let out := lifespan_shutdown w in
  out.1 = Raise e
  ∧ since w out.2 = [LogInfo ShuttingDown; Call DataCollectorStop]
  ∧ pending out.2 = rest.
Proof.
  intros Hset Hp out. subst out.
  destruct w as [pa po ra [dc|] conns t0 tr script]; [|discriminate Hset].
  cbn in Hp. subst script.
  split_and!; [by_run | since_by_trace | by_run].
Qed.

Lemma failing_stop_is_not_caught_witness :
  let w := feed [fails 2 (Exception "collector hangs")] two_open_sessions in
  (lifespan_shutdown w).1 = Raise (Exception "collector hangs")
  ∧ since w (lifespan_shutdown w).2
    = [LogInfo ShuttingDown; Call DataCollectorStop].
Proof.
  intros w.
  destruct (failing_stop_is_not_caught w 2 (Exception "collector hangs") [])
    as (Hraise & Hsince & _); [by_run | by_run |].
  split; [exact Hraise | exact Hsince].
Defined.
